(** * fmgr.py: directory navigation, selection by index and bulk file operations

  A shallow embedding of [FileExplorer], [FileSelector] and [FileManager]
  of [src/fmgr.py], composed the way [main_menu] composes them: one
  explorer, one selector reading that explorer, one manager reading that
  selector.

  - Python [int] is [Z]; [str] is [string]; [List[str]] is [list string].
  - An exception leaves every mutation made before the [raise] in place,
    so methods run in a state-and-exception monad [M] over the [world]:
    the filesystem together with the attributes of the three objects.
  - [os] and [shutil] calls that touch the filesystem are the operations
    of the class [OS]; [os.path.join] and [os.path.dirname] are the pure
    string functions of [posixpath].
  - [display_directory_contents] and [main_menu] run in a second monad,
    [IO], that adds the terminal: the lines still to be read and what has
    been written. [str.strip] and [int] are the operations of the class
    [Builtins]. *)

From Stdlib Require Import ZArith List String Ascii Bool Lia DecimalString.
Import ListNotations.
Local Open Scope string_scope.
Local Open Scope list_scope.
Local Open Scope Z_scope.

Set Implicit Arguments.

(** ** Exceptions *)

(** The exception classes the program raises itself ([ValueError],
  [NotADirectoryError], [FileNotFoundError]) and those the [os] and
  [shutil] calls raise; each carries its message. *)
Inductive exn : Type :=
| ValueError (msg : string)
| NotADirectoryError (msg : string)
| FileNotFoundError (msg : string)
| IsADirectoryError (msg : string)
| FileExistsError (msg : string)
| PermissionError (msg : string)
| IndexError (msg : string)
| OSError (msg : string)
| ShutilError (msg : string).

Inductive result (A : Type) : Type :=
| Ok (a : A)
| Raise (e : exn).
Arguments Ok {A} a.
Arguments Raise {A} e.

Definition is_ok {A} (r : result A) : bool :=
match r with Ok _ => true | Raise _ => false end.

(** ** Python lists *)

Module PyList.

(** [len(l)] *)
Definition len {A} (l : list A) : Z := Z.of_nat (List.length l).

(** [l[i]]: a negative index counts from the end; outside
    [-len(l) .. len(l)-1] Python raises [IndexError], here [None]. *)
Definition getitem {A} (l : list A) (i : Z) : option A :=
  if (0 <=? i) && (i <? len l) then nth_error l (Z.to_nat i)
  else if (- len l <=? i) && (i <? 0) then nth_error l (Z.to_nat (len l + i))
  else None.

(** [l.append(x)] *)
Definition append {A} (l : list A) (x : A) : list A := l ++ [x].

End PyList.

(** ** posixpath *)

Module posixpath.

Definition sep : ascii := "/"%char.

Definition startswith_sep (s : string) : bool :=
  match s with
  | String c _ => Ascii.eqb c sep
  | EmptyString => false
  end.

Fixpoint endswith_sep (s : string) : bool :=
  match s with
  | EmptyString => false
  | String c EmptyString => Ascii.eqb c sep
  | String _ r => endswith_sep r
  end.

(** [sep * n] *)
Fixpoint seps (n : nat) : string :=
  match n with
  | O => EmptyString
  | S k => String sep (seps k)
  end.

(** [p.rfind(sep)]: the index of the last separator, [-1] without one. *)
Fixpoint rfind_sep (p : string) : Z :=
  match p with
  | EmptyString => -1
  | String c r =>
      let k := rfind_sep r in
      if 0 <=? k then 1 + k
      else if Ascii.eqb c sep then 0 else -1
  end.

(** [p[:i]] for [0 <= i] *)
Definition slice_to (p : string) (i : Z) : string :=
  substring 0 (Z.to_nat i) p.

(** [p[i:]] for [0 <= i] *)
Definition slice_from (p : string) (i : Z) : string :=
  substring (Z.to_nat i) (String.length p - Z.to_nat i) p.

(** [s.rstrip(sep)] *)
Fixpoint rstrip_sep (s : string) : string :=
  match s with
  | EmptyString => EmptyString
  | String c r =>
      match rstrip_sep r with
      | EmptyString => if Ascii.eqb c sep then EmptyString else String c EmptyString
      | r' => String c r'
      end
  end.

(** [os.path.join(a, b)]:
    [if b.startswith(sep) or not path: path = b
     elif path.endswith(sep): path += b
     else: path += sep + b] *)
Definition join (a b : string) : string :=
  if startswith_sep b || String.eqb a "" then b
  else if endswith_sep a then (a ++ b)%string
  else (a ++ String sep b)%string.

(** [os.path.dirname(p)]:
    [i = p.rfind(sep) + 1; head = p[:i]
     if head and head != sep*len(head): head = head.rstrip(sep)] *)
Definition dirname (p : string) : string :=
  let i := rfind_sep p + 1 in
  let head := slice_to p i in
  if negb (String.eqb head "") && negb (String.eqb head (seps (String.length head)))
  then rstrip_sep head
  else head.

(** [os.path.basename(p)]: [p[p.rfind(sep)+1:]] *)
Definition basename (p : string) : string :=
  slice_from p (rfind_sep p + 1).

End posixpath.

(** ** The filesystem interface

    The [os] and [shutil] calls of the program, over an arbitrary type of
    filesystem states. The three predicates of [os.path] and [os.listdir]
    read the filesystem; the four others change it, and may have changed it
    when they raise. The program discards the path [shutil.copy2] and
    [shutil.move] return. *)
Class OS (fs : Type) : Type := {
  os_listdir : string -> fs -> result (list string);
  os_path_isdir : string -> fs -> bool;
  os_path_isfile : string -> fs -> bool;
  os_path_exists : string -> fs -> bool;
  os_remove : string -> fs -> result unit * fs;
  shutil_copy2 : string -> string -> fs -> result unit * fs;
  shutil_move : string -> string -> fs -> result unit * fs;
  shutil_rmtree : string -> fs -> result unit * fs
}.

(** ** The world: filesystem and object attributes

    [_current_path] is the attribute of the [FileExplorer];
    [_selected_files] and [_current_directory_contents] are those of the
    [FileSelector]. [_selected_files] is bound once, in [__init__], and only
    ever mutated in place ([clear], [append]): the field stands for that one
    list object, and every reference the methods hand out
    ([get_selected_files], the value of [select_files_by_indices]) is an
    alias of it. *)
Record world (fs : Type) : Type := World {
  disk : fs;
  _current_path : string;
  _selected_files : list string;
  _current_directory_contents : list string
}.
Arguments World {fs} _ _ _ _.

Definition with_disk {fs} (d : fs) (w : world fs) : world fs :=
  World d (_current_path w) (_selected_files w) (_current_directory_contents w).

Definition with_current_path {fs} (p : string) (w : world fs) : world fs :=
  World (disk w) p (_selected_files w) (_current_directory_contents w).

Definition with_selected_files {fs} (l : list string) (w : world fs) : world fs :=
  World (disk w) (_current_path w) l (_current_directory_contents w).

Definition with_current_directory_contents {fs} (l : list string) (w : world fs)
  : world fs :=
  World (disk w) (_current_path w) (_selected_files w) l.

(** ** The monad of methods *)

Definition M (fs A : Type) : Type := world fs -> result A * world fs.

Definition ret {fs A} (a : A) : M fs A := fun w => (Ok a, w).

Definition bind {fs A B} (m : M fs A) (k : A -> M fs B) : M fs B :=
  fun w =>
    match m w with
    | (Ok a, w') => k a w'
    | (Raise e, w') => (Raise e, w')
    end.

Definition raise {fs A} (e : exn) : M fs A := fun w => (Raise e, w).

Definition gets {fs A} (f : world fs -> A) : M fs A := fun w => (Ok (f w), w).

Definition modify {fs} (f : world fs -> world fs) : M fs unit :=
  fun w => (Ok tt, f w).

(** A call that reads the filesystem. *)
Definition os_read {fs A} (f : fs -> A) : M fs A := fun w => (Ok (f (disk w)), w).

(** A call that reads the filesystem and may raise. *)
Definition os_try {fs A} (f : fs -> result A) : M fs A := fun w => (f (disk w), w).

(** A call that changes the filesystem and may raise. *)
Definition os_call {fs A} (f : fs -> result A * fs) : M fs A :=
  fun w => let (r, d) := f (disk w) in (r, with_disk d w).

Declare Scope py_scope.
Delimit Scope py_scope with py.
Notation "x <- m ;; k" := (bind m (fun x => k))
  (at level 61, m at next level, right associativity) : py_scope.
Notation "m ;; k" := (bind m (fun _ => k))
  (at level 61, right associativity) : py_scope.
Local Open Scope py_scope.

(** [for x in l: body(x)]: the first exception ends the loop. *)
Fixpoint for_each {fs A} (l : list A) (body : A -> M fs unit) : M fs unit :=
  match l with
  | [] => ret tt
  | x :: r => body x ;; for_each r body
  end.

(** [l[i]] inside a method: an [IndexError] where Python raises one. *)
Definition subscript {fs A} (l : list A) (i : Z) : M fs A :=
  match PyList.getitem l i with
  | Some x => ret x
  | None => raise (IndexError "list index out of range")
  end.

(** ** The three classes *)

Section Classes.

Context {fs : Type} `{OS fs}.

(** *** FileExplorer *)

(** [__init__]: [self._current_path = start_path or os.path.expanduser('~')];
    [None] and the empty string both fall through to the home directory,
    which is a parameter here. *)
Definition FileExplorer_init (home : string) (start_path : option string) : string :=
  match start_path with
  | Some p => if String.eqb p "" then home else p
  | None => home
  end.

Definition get_current_directory : M fs string :=
  gets (@_current_path fs).

Definition set_current_directory (path : string) : M fs unit :=
  modify (with_current_path path).

Definition list_directory_contents : M fs (list string) :=
  p <- gets (@_current_path fs) ;;
  os_try (os_listdir p).

Definition navigate_to_index (index : Z) : M fs unit :=
  contents <- list_directory_contents ;;
  if (index <? 0) || (index >=? PyList.len contents)
  then raise (ValueError "Invalid index.")
  else
    selected <- subscript contents index ;;
    p <- gets (@_current_path fs) ;;
    let full_path := posixpath.join p selected in
    is_dir <- os_read (os_path_isdir full_path) ;;
    if is_dir : bool
    then modify (with_current_path full_path)
    else raise (NotADirectoryError (selected ++ " is not a directory.")).

Definition go_to_parent_directory : M fs unit :=
  p <- gets (@_current_path fs) ;;
  let parent := posixpath.dirname p in
  modify (with_current_path parent).

(** *** FileSelector *)

Definition load_directory_contents : M fs (list string) :=
  contents <- list_directory_contents ;;
  modify (with_current_directory_contents contents) ;;
  gets (@_current_directory_contents fs).

Definition clear_selection : M fs unit :=
  modify (with_selected_files []).

Definition get_selected_files : M fs (list string) :=
  gets (@_selected_files fs).

Definition select_files_by_indices (indices : list Z) : M fs (list string) :=
  load_directory_contents ;;
  current_dir <- get_current_directory ;;
  modify (with_selected_files []) ;;
  for_each indices (fun i =>
    contents <- gets (@_current_directory_contents fs) ;;
    if (0 <=? i) && (i <? PyList.len contents)
    then
      name <- subscript contents i ;;
      let full_path := posixpath.join current_dir name in
      modify (fun w => with_selected_files (PyList.append (_selected_files w) full_path) w)
    else raise (ValueError "File index out of range.")) ;;
  gets (@_selected_files fs).

(** *** FileManager

    [files] aliases the selector's list; no loop body touches that list, so
    each loop runs over the elements the list has when the loop starts. *)

Definition copy_files (destination : string) : M fs unit :=
  files <- get_selected_files ;;
  for_each files (fun f =>
    found <- os_read (os_path_exists f) ;;
    if found : bool
    then os_call (shutil_copy2 f destination)
    else raise (FileNotFoundError (f ++ " does not exist."))) ;;
  clear_selection.

Definition move_files (destination : string) : M fs unit :=
  files <- get_selected_files ;;
  for_each files (fun f =>
    found <- os_read (os_path_exists f) ;;
    if found : bool
    then os_call (shutil_move f destination)
    else raise (FileNotFoundError (f ++ " does not exist."))) ;;
  clear_selection.

Definition delete_files : M fs unit :=
  files <- get_selected_files ;;
  for_each files (fun f =>
    is_file <- os_read (os_path_isfile f) ;;
    if is_file : bool
    then os_call (os_remove f)
    else
      is_dir <- os_read (os_path_isdir f) ;;
      if is_dir : bool
      then os_call (shutil_rmtree f)
      else raise (FileNotFoundError (f ++ " does not exist."))) ;;
  clear_selection.

End Classes.

(** ** A filesystem

    An instance of [OS]: a tree of directories and regular files on one
    volume, the process working directory being the root. It has no
    symbolic links, no permissions, no special files and no [..] entries;
    within that it follows what CPython's [os] and [shutil] do on POSIX. *)

Module Posix.

#[warnings="-register-all"]
Inductive node : Type :=
| File (data : string)
| Dir (entries : list (string * node)).

Inductive errno : Type := ENOENT | ENOTDIR.

(** The names of a path: empty names and [.] are dropped. *)
Definition emit (name : string) : list string :=
  if String.eqb name "" || String.eqb name "." then [] else [name].

Fixpoint components_from (name : string) (p : string) : list string :=
  match p with
  | EmptyString => emit name
  | String c r =>
      if Ascii.eqb c posixpath.sep then emit name ++ components_from "" r
      else components_from (name ++ String c "") r
  end.

Definition components (p : string) : list string := components_from "" p.

Fixpoint find_entry (name : string) (es : list (string * node)) : option node :=
  match es with
  | [] => None
  | (k, n) :: r => if String.eqb k name then Some n else find_entry name r
  end.

Fixpoint walk (n : node) (cs : list string) : errno + node :=
  match cs with
  | [] => inr n
  | c :: r =>
      match n with
      | File _ => inl ENOTDIR
      | Dir es =>
          match find_entry c es with
          | Some m => walk m r
          | None => inl ENOENT
          end
      end
  end.

(** What a path names: the empty path names nothing, and a trailing
    separator asks for a directory. *)
Definition lookup (root : node) (p : string) : errno + node :=
  if String.eqb p "" then inl ENOENT
  else
    match walk root (components p) with
    | inr (File d) => if posixpath.endswith_sep p then inl ENOTDIR else inr (File d)
    | r => r
    end.

Fixpoint alter_entries (name : string) (f : option node -> option node)
  (es : list (string * node)) : list (string * node) :=
  match es with
  | [] => match f None with Some m => [(name, m)] | None => [] end
  | (k, n) :: r =>
      if String.eqb k name
      then match f (Some n) with Some m => (k, m) :: r | None => r end
      else (k, n) :: alter_entries name f r
  end.

(** Changes the entry a list of names leads to. With [mk], missing
    directories on the way are created, as [os.makedirs] does. *)
Fixpoint alter (mk : bool) (cs : list string) (f : option node -> option node)
  (n : node) : node :=
  match cs with
  | [] => n
  | [c] =>
      match n with
      | Dir es => Dir (alter_entries c f es)
      | File _ => n
      end
  | c :: r =>
      match n with
      | Dir es =>
          Dir (alter_entries c
                 (fun o =>
                    match o with
                    | Some m => Some (alter mk r f m)
                    | None => if mk then Some (alter mk r f (Dir [])) else None
                    end) es)
      | File _ => n
      end
  end.

Definition err (e : errno) (p : string) : exn :=
  match e with
  | ENOENT => FileNotFoundError ("[Errno 2] No such file or directory: '" ++ p ++ "'")
  | ENOTDIR => NotADirectoryError ("[Errno 20] Not a directory: '" ++ p ++ "'")
  end.

Definition eisdir (p : string) : exn :=
  IsADirectoryError ("[Errno 21] Is a directory: '" ++ p ++ "'").

Definition listdir (p : string) (root : node) : result (list string) :=
  match lookup root p with
  | inl e => Raise (err e p)
  | inr (File _) => Raise (err ENOTDIR p)
  | inr (Dir es) => Ok (map fst es)
  end.

Definition isdir (p : string) (root : node) : bool :=
  match lookup root p with inr (Dir _) => true | _ => false end.

Definition isfile (p : string) (root : node) : bool :=
  match lookup root p with inr (File _) => true | _ => false end.

Definition exists_ (p : string) (root : node) : bool :=
  match lookup root p with inr _ => true | inl _ => false end.

(** [os.remove] *)
Definition remove (p : string) (root : node) : result unit * node :=
  match lookup root p with
  | inl e => (Raise (err e p), root)
  | inr (Dir _) => (Raise (eisdir p), root)
  | inr (File _) => (Ok tt, alter false (components p) (fun _ => None) root)
  end.

(** [shutil.rmtree]: the root directory is emptied and cannot be removed. *)
Definition rmtree (p : string) (root : node) : result unit * node :=
  match lookup root p with
  | inl e => (Raise (err e p), root)
  | inr (File _) => (Raise (err ENOTDIR p), root)
  | inr (Dir _) =>
      match components p with
      | [] => (Raise (OSError ("[Errno 16] Device or resource busy: '" ++ p ++ "'")), Dir [])
      | cs => (Ok tt, alter false cs (fun _ => None) root)
      end
  end.

(** [open(p, 'wb')] followed by writing [data]. *)
Definition write_file (p : string) (data : string) (root : node) : result unit * node :=
  if String.eqb p "" then (Raise (err ENOENT p), root)
  else
    match components p with
    | [] => (Raise (eisdir p), root)
    | cs =>
        match walk root (removelast cs) with
        | inl e => (Raise (err e p), root)
        | inr (File _) => (Raise (err ENOTDIR p), root)
        | inr (Dir es) =>
            match find_entry (last cs "") es with
            | Some (Dir _) => (Raise (eisdir p), root)
            | Some (File _) =>
                if posixpath.endswith_sep p then (Raise (err ENOTDIR p), root)
                else (Ok tt, alter false cs (fun _ => Some (File data)) root)
            | None =>
                if posixpath.endswith_sep p then (Raise (eisdir p), root)
                else (Ok tt, alter false cs (fun _ => Some (File data)) root)
            end
        end
    end.

(** [shutil._samefile]: both paths name the same existing node. *)
Definition samefile (src dst : string) (root : node) : bool :=
  exists_ src root && exists_ dst root
  && if list_eq_dec string_dec (components src) (components dst) then true else false.

(** [shutil.copyfile] *)
Definition copyfile (src dst : string) (root : node) : result unit * node :=
  if samefile src dst root
  then (Raise (ShutilError ("'" ++ src ++ "' and '" ++ dst ++ "' are the same file")), root)
  else
    match lookup root src with
    | inl e => (Raise (err e src), root)
    | inr (Dir _) => (Raise (eisdir src), root)
    | inr (File data) =>
        write_file dst data root
    end.

(** [shutil.copy2]: into [dst] under the base name of [src] when [dst] is a
    directory; the metadata [copystat] carries over is not in the model. *)
Definition copy2 (src dst : string) (root : node) : result unit * node :=
  let dst := if isdir dst root then posixpath.join dst (posixpath.basename src) else dst in
  copyfile src dst root.

(** [shutil._destinsrc]: [dst] is [src] or lies under it. *)
Fixpoint is_prefix (a b : list string) : bool :=
  match a, b with
  | [], _ => true
  | x :: a', y :: b' => String.eqb x y && is_prefix a' b'
  | _ :: _, [] => false
  end.

Definition destinsrc (src dst : string) : bool :=
  is_prefix (components src) (components dst).

(** [os.rename(src, real_dst)] and, when it fails, the copy-and-delete
    fallback of [shutil.move]; [real_dst] is not a directory here. *)
Definition rename_or_copy (src dst real_dst : string) (root : node) : result unit * node :=
  match lookup root src with
  | inl e => (Raise (err e src), root)
  | inr (File data) =>
      if samefile src real_dst root then (Ok tt, root)
      else
        match write_file real_dst data root with
        | (Ok _, root') => (Ok tt, alter false (components src) (fun _ => None) root')
        | (Raise e, root') => (Raise e, root')
        end
  | inr (Dir es) =>
      if destinsrc src dst
      then (Raise (ShutilError ("Cannot move a directory '" ++ src ++ "' into itself '"
                                  ++ dst ++ "'.")), root)
      else if String.eqb real_dst "" then (Raise (err ENOENT real_dst), root)
      else
        let cs := components real_dst in
        match walk root cs with
        | inr _ =>
            (Raise (FileExistsError ("[Errno 17] File exists: '" ++ real_dst ++ "'")), root)
        | inl ENOTDIR => (Raise (err ENOTDIR real_dst), root)
        | inl ENOENT =>
            match walk root (removelast cs) with
            | inl ENOTDIR | inr (File _) => (Raise (err ENOTDIR real_dst), root)
            | _ =>
                (Ok tt, alter false (components src) (fun _ => None)
                          (alter true cs (fun _ => Some (Dir es)) root))
            end
        end
  end.

(** [shutil.move] *)
Definition move (src dst : string) (root : node) : result unit * node :=
  if isdir dst root then
    if samefile src dst root then (Ok tt, root)
    else
      let real_dst :=
        posixpath.join dst (posixpath.basename (posixpath.rstrip_sep src)) in
      if exists_ real_dst root
      then (Raise (ShutilError ("Destination path '" ++ real_dst ++ "' already exists")), root)
      else rename_or_copy src dst real_dst root
  else rename_or_copy src dst dst root.

End Posix.

#[export] Instance posix_OS : OS Posix.node := {
  os_listdir := Posix.listdir;
  os_path_isdir := Posix.isdir;
  os_path_isfile := Posix.isfile;
  os_path_exists := Posix.exists_;
  os_remove := Posix.remove;
  shutil_copy2 := Posix.copy2;
  shutil_move := Posix.move;
  shutil_rmtree := Posix.rmtree
}.

(** The directory of the scenarios: [/home/u] holds [a.txt] and the
    directory [docs], which holds [notes.md]; [/tmp] is empty. *)
Definition home_u : Posix.node :=
  Posix.Dir
    [("home", Posix.Dir
        [("u", Posix.Dir
            [("a.txt", Posix.File "alpha");
             ("docs", Posix.Dir [("notes.md", Posix.File "notes")])])]);
     ("tmp", Posix.Dir [])].

(** [main_menu]'s three objects right after construction. *)
Definition initial_world {fs} (d : fs) (home : string) (start_path : option string)
  : world fs :=
  World d (FileExplorer_init home start_path) [] [].

(** The scenario's session: started in [/home/u], nothing selected. *)
Definition session : world Posix.node := initial_world home_u "/root" (Some "/home/u").

(** ** The menu

    [display_directory_contents] and [main_menu] talk to a terminal:
    [print] writes a line, [input] writes its prompt and reads a line, and
    raises [EOFError] when there is none left. The terminal is the
    [console]: the lines still to be read and what has been written so
    far, oldest first. *)

Inductive output : Type :=
| Printed (line : string)
| Prompted (prompt : string).

Record console : Type := Console {
  stdin : list string;
  stdout : list output
}.

(** What the menu can see raised: an exception of a method or of [int],
    or the [EOFError] of [input]. All are subclasses of [Exception]. *)
Inductive signal : Type :=
| Exc (e : exn)
| EOFError.

(** [str(e)] *)
Definition str_exn (e : exn) : string :=
  match e with
  | ValueError msg | NotADirectoryError msg | FileNotFoundError msg
  | IsADirectoryError msg | FileExistsError msg | PermissionError msg
  | IndexError msg | OSError msg | ShutilError msg => msg
  end.

Definition str_signal (s : signal) : string :=
  match s with
  | Exc e => str_exn e
  | EOFError => "EOF when reading a line"
  end.

Inductive outcome (A : Type) : Type :=
| Return (a : A)
| Throw (s : signal).
Arguments Return {A} a.
Arguments Throw {A} s.

Definition IO (fs A : Type) : Type :=
  console -> world fs -> outcome A * console * world fs.

Definition io_ret {fs A} (a : A) : IO fs A := fun c w => (Return a, c, w).

Definition io_bind {fs A B} (m : IO fs A) (k : A -> IO fs B) : IO fs B :=
  fun c w =>
    match m c w with
    | (Return a, c', w') => k a c' w'
    | (Throw s, c', w') => (Throw s, c', w')
    end.

(** A method called from the menu. *)
Definition call {fs A} (m : M fs A) : IO fs A :=
  fun c w =>
    match m w with
    | (Ok a, w') => (Return a, c, w')
    | (Raise e, w') => (Throw (Exc e), c, w')
    end.

(** A builtin that may raise. *)
Definition io_try {fs A} (r : result A) : IO fs A :=
  fun c w =>
    match r with
    | Ok a => (Return a, c, w)
    | Raise e => (Throw (Exc e), c, w)
    end.

(** [print(line)] *)
Definition print {fs} (line : string) : IO fs unit :=
  fun c w => (Return tt, Console (stdin c) (stdout c ++ [Printed line]), w).

(** [input(prompt)] *)
Definition input {fs} (prompt : string) : IO fs string :=
  fun c w =>
    match stdin c with
    | line :: rest => (Return line, Console rest (stdout c ++ [Prompted prompt]), w)
    | [] => (Throw EOFError, Console [] (stdout c ++ [Prompted prompt]), w)
    end.

(** [try: m / except ...: handler] with handlers for every [Exception]. *)
Definition try_except {fs A} (m : IO fs A) (handler : signal -> IO fs A) : IO fs A :=
  fun c w =>
    match m c w with
    | (Throw s, c', w') => handler s c' w'
    | r => r
    end.

Declare Scope io_scope.
Delimit Scope io_scope with io.
Notation "x <- m ;; k" := (io_bind m (fun x => k))
  (at level 61, m at next level, right associativity) : io_scope.
Notation "m ;; k" := (io_bind m (fun _ => k))
  (at level 61, right associativity) : io_scope.

(** [for x in l: body(x)] *)
Fixpoint io_for_each {fs A} (l : list A) (body : A -> IO fs unit) : IO fs unit :=
  match l with
  | [] => io_ret tt
  | x :: r => io_bind (body x) (fun _ => io_for_each r body)
  end.

(** [for index, x in enumerate(l): body(index, x)], counting from [index]. *)
Fixpoint io_for_enumerate {fs A} (index : nat) (l : list A)
  (body : nat -> A -> IO fs unit) : IO fs unit :=
  match l with
  | [] => io_ret tt
  | x :: r => io_bind (body index x) (fun _ => io_for_enumerate (S index) r body)
  end.

(** *** Builtins *)

(** [str.strip] and [int] are taken as given: [int] returns the integer a
    string denotes or raises [ValueError]. *)
Class Builtins : Type := {
  str_strip : string -> string;
  int_of_str : string -> result Z
}.

(** [str(n)] for an index: its decimal digits. *)
Definition str_nat (n : nat) : string := NilEmpty.string_of_uint (Nat.to_uint n).

(** [s * n] *)
Fixpoint str_mul (s : string) (n : nat) : string :=
  match n with
  | O => ""
  | S k => s ++ str_mul s k
  end.

Definition newline : string := String "010"%char "".

(** [s.split(',')] *)
Fixpoint split_comma_from (part : string) (s : string) : list string :=
  match s with
  | EmptyString => [part]
  | String c r =>
      if Ascii.eqb c ","%char then part :: split_comma_from "" r
      else split_comma_from (part ++ String c "") r
  end.

Definition split_comma (s : string) : list string := split_comma_from "" s.

(** [[int(i) for i in parts]]: the first part [int] refuses ends it. *)
Fixpoint int_each `{Builtins} (parts : list string) : result (list Z) :=
  match parts with
  | [] => Ok []
  | p :: r =>
      match int_of_str p with
      | Raise e => Raise e
      | Ok z =>
          match int_each r with
          | Raise e => Raise e
          | Ok zs => Ok (z :: zs)
          end
      end
  end.

Section Driver.

Context {fs : Type} `{OS fs} `{Builtins}.

Local Open Scope io_scope.

Definition display_directory_contents : IO fs unit :=
  try_except
    (contents <- call list_directory_contents ;;
     p <- call get_current_directory ;;
     print (newline ++ "Current Directory: " ++ p) ;;
     print (str_mul "-" 50) ;;
     io_for_enumerate 0 contents (fun index element =>
       p <- call get_current_directory ;;
       let full_path := posixpath.join p element in
       is_dir <- call (os_read (os_path_isdir full_path)) ;;
       let element_type := if is_dir : bool then "📁 Folder" else "📄 File" in
       print (str_nat index ++ ". " ++ element_type ++ ": " ++ element)))
    (fun s =>
       match s with
       | Exc (PermissionError _) => print "Access denied to this directory."
       | _ => print ("Error: " ++ str_signal s)
       end).

(** One turn of the [while True] loop of [main_menu]; [true] is [break]. *)
Definition menu_turn : IO fs bool :=
  print (newline ++ "--- File Explorer ---") ;;
  print "1. Display Directory" ;;
  print "2. Navigate into a Subdirectory" ;;
  print "3. Go to Parent Directory" ;;
  print "4. Select Files" ;;
  print "5. Copy Selected" ;;
  print "6. Move Selected" ;;
  print "7. Delete Selected" ;;
  print "8. Quit" ;;
  line <- input "Your choice: " ;;
  let choice := str_strip line in
  try_except
    (if String.eqb choice "1" then
       display_directory_contents ;;
       io_ret false
     else if String.eqb choice "2" then
       display_directory_contents ;;
       line <- input "Enter navigation index: " ;;
       index <- io_try (int_of_str (str_strip line)) ;;
       call (navigate_to_index index) ;;
       display_directory_contents ;;
       io_ret false
     else if String.eqb choice "3" then
       call go_to_parent_directory ;;
       display_directory_contents ;;
       io_ret false
     else if String.eqb choice "4" then
       display_directory_contents ;;
       line <- input "Enter file indices to select (comma-separated): " ;;
       let indices_str := str_strip line in
       indices <- io_try (int_each (split_comma indices_str)) ;;
       selected <- call (select_files_by_indices indices) ;;
       print "Selected files:" ;;
       io_for_each selected (fun f => print (" - " ++ posixpath.basename f)) ;;
       io_ret false
     else if String.eqb choice "5" then
       line <- input "Enter destination path for copying: " ;;
       let dest := str_strip line in
       call (copy_files dest) ;;
       print "Files copied." ;;
       io_ret false
     else if String.eqb choice "6" then
       line <- input "Enter destination path for moving: " ;;
       let dest := str_strip line in
       call (move_files dest) ;;
       print "Files moved." ;;
       io_ret false
     else if String.eqb choice "7" then
       call delete_files ;;
       print "Files deleted." ;;
       io_ret false
     else if String.eqb choice "8" then
       print "Goodbye!" ;;
       io_ret true
     else
       print "Invalid choice. Please try again." ;;
       io_ret false)
    (fun e => print ("An error occurred: " ++ str_signal e) ;; io_ret false).

(** The loop, for at most [fuel] turns: [None] when they are used up. *)
Fixpoint menu_loop (fuel : nat) : IO fs (option unit) :=
  match fuel with
  | O => io_ret None
  | S k =>
      stop <- menu_turn ;;
      if stop : bool then io_ret (Some tt) else menu_loop k
  end.

(** [main_menu]: the three objects are built, the explorer on the home
    directory, and the loop runs. Every turn reads a line, so one turn more
    than there are lines is enough. *)
Definition main_menu (home : string) (c : console) (d : fs)
  : outcome (option unit) * console * world fs :=
  menu_loop (S (List.length (stdin c))) c (initial_world d home None).

End Driver.

(** [str.strip] and [int] on ASCII text: blanks are the ASCII white space,
    an integer is an optional sign and decimal digits, with single
    underscores allowed between digits. *)
Module Ascii_builtins.

Definition is_space (c : ascii) : bool :=
  let n := nat_of_ascii c in
  ((9 <=? n) && (n <=? 13) || (28 <=? n) && (n <=? 32))%nat.

Fixpoint lstrip (s : string) : string :=
  match s with
  | String c r => if is_space c then lstrip r else s
  | EmptyString => EmptyString
  end.

Fixpoint rstrip (s : string) : string :=
  match s with
  | EmptyString => EmptyString
  | String c r =>
      match rstrip r with
      | EmptyString => if is_space c then EmptyString else String c EmptyString
      | r' => String c r'
      end
  end.

Definition strip (s : string) : string := rstrip (lstrip s).

Definition digit (c : ascii) : option Z :=
  let n := nat_of_ascii c in
  if ((48 <=? n) && (n <=? 57))%nat then Some (Z.of_nat n - 48) else None.

Definition starts_with_digit (s : string) : bool :=
  match s with
  | String c _ => match digit c with Some _ => true | None => false end
  | EmptyString => false
  end.

(** Digits, with single underscores between them. *)
Fixpoint digits (acc : Z) (s : string) : option Z :=
  match s with
  | EmptyString => Some acc
  | String c r =>
      match digit c with
      | Some d =>
          match r with
          | String u r' =>
              if Ascii.eqb u "_"%char
              then if starts_with_digit r' then digits (10 * acc + d) r' else None
              else digits (10 * acc + d) r
          | EmptyString => Some (10 * acc + d)
          end
      | None => None
      end
  end.

Definition invalid (s : string) : exn :=
  ValueError ("invalid literal for int() with base 10: '" ++ s ++ "'").

Definition int (s : string) : result Z :=
  match strip s with
  | EmptyString => Raise (invalid s)
  | String c r =>
      let body sign t :=
        match t with
        | EmptyString => Raise (invalid s)
        | _ => match digits 0 t with
               | Some z => Ok (sign * z)
               | None => Raise (invalid s)
               end
        end in
      if Ascii.eqb c "-"%char then body (-1) r
      else if Ascii.eqb c "+"%char then body 1 r
      else body 1 (String c r)
  end.

End Ascii_builtins.

#[export] Instance ascii_builtins : Builtins := {
  str_strip := Ascii_builtins.strip;
  int_of_str := Ascii_builtins.int
}.

(** ** What the properties speak of *)

(** An index is in range for a listing: [0 <= i < len(contents)]. *)
Definition in_range (contents : list string) (i : Z) : Prop :=
  0 <= i < PyList.len contents.

Definition in_rangeb (contents : list string) (i : Z) : bool :=
  (0 <=? i) && (i <? PyList.len contents).

(** The absolute path index [i] of a listing of [dir] resolves to. *)
Definition resolve (dir : string) (contents : list string) (i : Z) : string :=
  posixpath.join dir (nth (Z.to_nat i) contents "").

(** The indices that precede the first out-of-range one. *)
Fixpoint valid_prefix (contents : list string) (indices : list Z) : list Z :=
  match indices with
  | [] => []
  | i :: r => if in_rangeb contents i then i :: valid_prefix contents r else []
  end.

(** What [select_files_by_indices] does up to its loop: the listing is
    stored, the selection emptied. *)
Definition refreshed {fs} (contents : list string) (w : world fs) : world fs :=
  with_selected_files [] (with_current_directory_contents contents w).

(** A method that leaves the attributes of the three objects alone: only
    the filesystem may differ afterwards. *)
Definition keeps_attrs {fs A} (m : M fs A) : Prop :=
  forall w : world fs, snd (m w) = with_disk (disk (snd (m w))) w.

(** The session with a selection put in place. *)
Definition selecting (files : list string) : world Posix.node :=
  with_selected_files files session.

(** A method that does not look at the selection: run with another
    selection in place, it does the same and leaves that selection. *)
Definition selection_blind {fs A} (m : M fs A) : Prop :=
  forall (files : list string) (w : world fs),
    m (with_selected_files files w)
    = (fst (m w), with_selected_files files (snd (m w))).

(** The three operations of [IFileManager], as one family. *)
Inductive bulk_op : Type :=
| Copy (destination : string)
| Move (destination : string)
| Delete.

Definition run_bulk {fs} `{OS fs} (op : bulk_op) : M fs unit :=
  match op with
  | Copy destination => copy_files destination
  | Move destination => move_files destination
  | Delete => delete_files
  end.

(** The shape the three operations share, over the body of the loop. *)
Definition bulk_shape {fs} (body : string -> M fs unit) : M fs unit :=
  files <- get_selected_files ;; for_each files body ;; clear_selection.

(** Two worlds that differ in the current path at most. *)
Definition same_but_path {fs} (w w' : world fs) : Prop :=
  disk w' = disk w
  /\ _selected_files w' = _selected_files w
  /\ _current_directory_contents w' = _current_directory_contents w.

(** The console after some lines were printed. *)
Definition wrote (c : console) (lines : list string) : console :=
  Console (stdin c) (stdout c ++ map Printed lines).

(** The line [display_directory_contents] prints for an entry. *)
Definition entry_line {fs} `{OS fs} (w : world fs) (index : nat) (element : string)
  : string :=
  str_nat index ++ ". "
  ++ (if os_path_isdir (posixpath.join (_current_path w) element) (disk w)
      then "📁 Folder" else "📄 File")
  ++ ": " ++ element.

Fixpoint entry_lines {fs} `{OS fs} (w : world fs) (index : nat) (contents : list string)
  : list string :=
  match contents with
  | [] => []
  | element :: r => entry_line w index element :: entry_lines w (S index) r
  end.

(** What [display_directory_contents] is to print in a world. *)
Definition display_lines {fs} `{OS fs} (w : world fs) : list string :=
  match os_listdir (_current_path w) (disk w) with
  | Ok contents =>
      (newline ++ "Current Directory: " ++ _current_path w)%string
      :: str_mul "-" 50
      :: entry_lines w 0 contents
  | Raise (PermissionError _) => ["Access denied to this directory."]
  | Raise e => [("Error: " ++ str_exn e)%string]
  end.

(** The nine lines of the menu and the prompt that follows them. *)
Definition menu_output : list output :=
  map Printed
    [(newline ++ "--- File Explorer ---")%string; "1. Display Directory";
     "2. Navigate into a Subdirectory"; "3. Go to Parent Directory";
     "4. Select Files"; "5. Copy Selected"; "6. Move Selected";
     "7. Delete Selected"; "8. Quit"]
  ++ [Prompted "Your choice: "].

(** A piece of the menu that reads forward only: it leaves no more lines
    to read than it found. *)
Definition reads_on {fs A} (m : IO fs A) : Prop :=
  forall (c : console) (w : world fs),
    (List.length (stdin (snd (fst (m c w)))) <= List.length (stdin c))%nat.

(** A piece of the menu that asks for [break] only after the farewell. *)
Definition breaks_politely {fs} (m : IO fs bool) : Prop :=
  forall (c c' : console) (w w' : world fs),
    m c w = (Return true, c', w') ->
    exists out, stdout c' = out ++ [Printed "Goodbye!"].

(** How a run of [main_menu] can end: by [break], the farewell printed
    last, or by [EOFError] with every line read. *)
Definition ends_well {fs} (r : outcome (option unit) * console * world fs) : Prop :=
  match r with
  | (Return (Some _), c', _) => exists out, stdout c' = out ++ [Printed "Goodbye!"]
  | (Return None, _, _) => False
  | (Throw s, c', _) => s = EOFError /\ stdin c' = []
  end.

(** * Properties *)

(** ** Lists and paths *)

Lemma in_rangeb_spec contents i :
  in_rangeb contents i = true <-> in_range contents i.
Proof.
  unfold in_rangeb, in_range.
  rewrite andb_true_iff, Z.leb_le, Z.ltb_lt. tauto.
Qed.

Lemma in_rangeb_false contents i :
  in_rangeb contents i = false <-> ~ in_range contents i.
Proof.
  rewrite <- in_rangeb_spec. destruct (in_rangeb contents i); split; congruence.
Qed.

Lemma getitem_in_range (contents : list string) i :
  in_range contents i ->
  PyList.getitem contents i = Some (nth (Z.to_nat i) contents "").
Proof.
  intros Hi. unfold PyList.getitem.
  apply in_rangeb_spec in Hi as Hb. unfold in_rangeb in Hb. rewrite Hb.
  apply nth_error_nth'. unfold in_range, PyList.len in Hi. lia.
Qed.

Lemma valid_prefix_all contents indices :
  Forall (in_range contents) indices -> valid_prefix contents indices = indices.
Proof.
  induction 1 as [|i r Hi _ IH]; simpl; [reflexivity|].
  apply in_rangeb_spec in Hi. rewrite Hi, IH. reflexivity.
Qed.

Lemma valid_prefix_split contents indices :
  Exists (fun i => ~ in_range contents i) indices ->
  exists bad post,
    indices = valid_prefix contents indices ++ bad :: post
    /\ ~ in_range contents bad.
Proof.
  induction indices as [|i r IH]; intros Hex.
  - inversion Hex.
  - simpl. destruct (in_rangeb contents i) eqn:Hb.
    + apply in_rangeb_spec in Hb.
      inversion Hex as [? ? Hbad|? ? Hr]; subst; [contradiction|].
      destruct (IH Hr) as (bad & post & Heq & Hbad).
      exists bad, post. split; [|assumption].
      simpl. f_equal. exact Heq.
    + apply in_rangeb_false in Hb. exists i, r. split; [reflexivity|assumption].
Qed.

Lemma valid_prefix_in_range contents indices :
  Forall (in_range contents) (valid_prefix contents indices).
Proof.
  induction indices as [|i r IH]; simpl; [constructor|].
  destruct (in_rangeb contents i) eqn:Hb; constructor; [|assumption].
  apply in_rangeb_spec. assumption.
Qed.

(** ** Selection by index *)

Section Selection.

Context {fs : Type} `{OS fs}.

(** The loop of [select_files_by_indices] over indices that are all in
    range appends their paths, in order. *)
Lemma select_loop_valid (current_dir : string) (indices : list Z) :
  forall w : world fs,
    Forall (in_range (_current_directory_contents w)) indices ->
    for_each indices (fun i =>
      contents <- gets (@_current_directory_contents fs) ;;
      if (0 <=? i) && (i <? PyList.len contents)
      then
        name <- subscript contents i ;;
        let full_path := posixpath.join current_dir name in
        modify (fun w => with_selected_files (PyList.append (_selected_files w) full_path) w)
      else raise (ValueError "File index out of range.")) w
    = (Ok tt,
       with_selected_files
         (_selected_files w
            ++ map (resolve current_dir (_current_directory_contents w)) indices) w).
Proof.
  induction indices as [|i r IH]; intros w Hall.
  - simpl. unfold ret, with_selected_files. rewrite app_nil_r.
    destruct w; reflexivity.
  - inversion Hall as [|? ? Hi Hr]; subst.
    cbn [for_each]. unfold bind at 1. unfold bind at 1. unfold gets at 1.
    apply in_rangeb_spec in Hi as Hb. unfold in_rangeb in Hb. rewrite Hb.
    unfold bind at 1, subscript. rewrite (getitem_in_range Hi).
    unfold ret, modify.
    rewrite IH by (destruct w; exact Hr).
    destruct w; cbn. unfold PyList.append, resolve.
    rewrite <- app_assoc. reflexivity.
Qed.

(** The loop stops at the first index out of range: the paths of the
    indices before it stay appended, those after it are never looked at. *)
Lemma select_loop_invalid (current_dir : string) (pre : list Z) (bad : Z) (post : list Z) :
  forall w : world fs,
    Forall (in_range (_current_directory_contents w)) pre ->
    ~ in_range (_current_directory_contents w) bad ->
    for_each (pre ++ bad :: post) (fun i =>
      contents <- gets (@_current_directory_contents fs) ;;
      if (0 <=? i) && (i <? PyList.len contents)
      then
        name <- subscript contents i ;;
        let full_path := posixpath.join current_dir name in
        modify (fun w => with_selected_files (PyList.append (_selected_files w) full_path) w)
      else raise (ValueError "File index out of range.")) w
    = (Raise (ValueError "File index out of range."),
       with_selected_files
         (_selected_files w
            ++ map (resolve current_dir (_current_directory_contents w)) pre) w).
Proof.
  induction pre as [|i r IH]; intros w Hall Hbad.
  - cbn [app for_each map]. unfold bind at 1. unfold bind at 1. unfold gets at 1.
    apply in_rangeb_false in Hbad. unfold in_rangeb in Hbad. rewrite Hbad.
    unfold raise, with_selected_files. rewrite app_nil_r. destruct w; reflexivity.
  - inversion Hall as [|? ? Hi Hr]; subst.
    cbn [app for_each]. unfold bind at 1. unfold bind at 1. unfold gets at 1.
    apply in_rangeb_spec in Hi as Hb. unfold in_rangeb in Hb. rewrite Hb.
    unfold bind at 1, subscript. rewrite (getitem_in_range Hi).
    unfold ret, modify.
    rewrite IH by (destruct w; assumption).
    destruct w; cbn. unfold PyList.append, resolve.
    rewrite <- app_assoc. reflexivity.
Qed.

Lemma select_valid (w : world fs) (contents : list string) (indices : list Z) :
  os_listdir (_current_path w) (disk w) = Ok contents ->
  Forall (in_range contents) indices ->
  select_files_by_indices indices w
  = (Ok (map (resolve (_current_path w) contents) indices),
     with_selected_files (map (resolve (_current_path w) contents) indices)
       (refreshed contents w)).
Proof.
  intros Hls Hall.
  unfold select_files_by_indices, load_directory_contents, list_directory_contents,
    get_current_directory.
  unfold bind at 1. unfold bind at 1. unfold bind at 1. unfold gets at 1.
  unfold os_try at 1. rewrite Hls.
  unfold bind at 1. unfold modify at 1. unfold gets at 1.
  unfold bind at 1. unfold gets at 1.
  unfold bind at 1. unfold modify at 1.
  unfold bind at 1.
  rewrite select_loop_valid by (destruct w; exact Hall).
  destruct w; reflexivity.
Qed.

Lemma select_invalid (w : world fs) (contents : list string)
  (pre : list Z) (bad : Z) (post : list Z) :
  os_listdir (_current_path w) (disk w) = Ok contents ->
  Forall (in_range contents) pre ->
  ~ in_range contents bad ->
  select_files_by_indices (pre ++ bad :: post) w
  = (Raise (ValueError "File index out of range."),
     with_selected_files (map (resolve (_current_path w) contents) pre)
       (refreshed contents w)).
Proof.
  intros Hls Hall Hbad.
  unfold select_files_by_indices, load_directory_contents, list_directory_contents,
    get_current_directory.
  unfold bind at 1. unfold bind at 1. unfold bind at 1. unfold gets at 1.
  unfold os_try at 1. rewrite Hls.
  unfold bind at 1. unfold modify at 1. unfold gets at 1.
  unfold bind at 1. unfold gets at 1.
  unfold bind at 1. unfold modify at 1.
  unfold bind at 1.
  rewrite select_loop_invalid by (destruct w; assumption).
  destruct w; reflexivity.
Qed.

End Selection.

(** C8. When the directory listing succeeds, [select_files_by_indices]
    called with the empty index sequence does not fail: it returns the empty
    list, and the selection it leaves is empty. *)
Theorem select_empty_indices :
  forall (fs : Type) (os : OS fs) (w : world fs) (contents : list string),
    os_listdir (_current_path w) (disk w) = Ok contents ->
    select_files_by_indices [] w = (Ok [], refreshed contents w)
    /\ _selected_files (refreshed contents w) = [].
Proof.
  intros fs os w contents Hls. split; [|reflexivity].
  rewrite (select_valid w (indices := []) Hls); [reflexivity | constructor].
Qed.

Lemma select_empty_indices_witness :
  select_files_by_indices [] session = (Ok [], refreshed ["a.txt"; "docs"] session)
  /\ _selected_files (refreshed ["a.txt"; "docs"] session) = [].
Proof.
  apply (@select_empty_indices Posix.node posix_OS session ["a.txt"; "docs"]).
  reflexivity.
Defined.

(** C6. When every index is in range for the listing, two calls of
    [select_files_by_indices] in a row with the same indices return the same
    list and leave the same selection: the second call changes nothing, and
    that also holds on any other filesystem state that lists the directory
    the same. *)
Theorem select_twice_same :
  forall (fs : Type) (os : OS fs) (w : world fs) (contents : list string)
         (indices : list Z),
    os_listdir (_current_path w) (disk w) = Ok contents ->
    Forall (in_range contents) indices ->
    exists (sel : list string) (w1 : world fs),
      select_files_by_indices indices w = (Ok sel, w1)
      /\ _selected_files w1 = sel
      /\ select_files_by_indices indices w1 = (Ok sel, w1)
      /\ forall d2 : fs,
           os_listdir (_current_path w1) d2 = Ok contents ->
           select_files_by_indices indices (with_disk d2 w1) = (Ok sel, with_disk d2 w1).
Proof.
  intros fs os w contents indices Hls Hall.
  exists (map (resolve (_current_path w) contents) indices).
  eexists. split; [apply (select_valid w Hls Hall)|].
  split; [reflexivity|].
  assert (Hagain : forall d2 : fs,
             os_listdir (_current_path w) d2 = Ok contents ->
             select_files_by_indices indices
               (with_disk d2
                  (with_selected_files (map (resolve (_current_path w) contents) indices)
                     (refreshed contents w)))
             = (Ok (map (resolve (_current_path w) contents) indices),
                with_disk d2
                  (with_selected_files (map (resolve (_current_path w) contents) indices)
                     (refreshed contents w)))).
  { intros d2 Hls2.
    rewrite (@select_valid fs os _ contents indices); [reflexivity | exact Hls2 | exact Hall]. }
  split.
  - specialize (Hagain (disk w) Hls). destruct w; exact Hagain.
  - intros d2 Hls2. apply Hagain. exact Hls2.
Qed.

Lemma select_twice_same_witness :
  exists (sel : list string) (w1 : world Posix.node),
    select_files_by_indices [1; 0; 1] session = (Ok sel, w1)
    /\ _selected_files w1 = sel
    /\ select_files_by_indices [1; 0; 1] w1 = (Ok sel, w1)
    /\ forall d2 : Posix.node,
         os_listdir (_current_path w1) d2 = Ok ["a.txt"; "docs"] ->
         select_files_by_indices [1; 0; 1] (with_disk d2 w1) = (Ok sel, with_disk d2 w1).
Proof.
  apply (@select_twice_same Posix.node posix_OS session ["a.txt"; "docs"] [1; 0; 1]).
  - reflexivity.
  - repeat constructor; unfold PyList.len; simpl; lia.
Defined.

(** C3. When the listing succeeds and some index is out of range,
    [select_files_by_indices] raises [ValueError] (index out of range), and
    the selection it leaves holds exactly the paths of the indices that come
    before the first out-of-range one, in order: none when that one comes
    first. *)
Theorem select_out_of_range :
  forall (fs : Type) (os : OS fs) (w : world fs) (contents : list string)
         (indices : list Z),
    os_listdir (_current_path w) (disk w) = Ok contents ->
    Exists (fun i => ~ in_range contents i) indices ->
    fst (select_files_by_indices indices w) = Raise (ValueError "File index out of range.")
    /\ _selected_files (snd (select_files_by_indices indices w))
       = map (resolve (_current_path w) contents) (valid_prefix contents indices)
    /\ (forall bad rest, indices = bad :: rest -> ~ in_range contents bad ->
        _selected_files (snd (select_files_by_indices indices w)) = []).
Proof.
  intros fs os w contents indices Hls Hex.
  destruct (valid_prefix_split Hex) as (bad & post & Heq & Hbad).
  pose proof (select_invalid w (pre := valid_prefix contents indices) post Hls
                (valid_prefix_in_range contents indices) Hbad) as Hrun.
  rewrite <- Heq in Hrun. rewrite Hrun. cbn [fst snd].
  split; [reflexivity|]. split; [reflexivity|].
  intros bad' rest -> Hbad'. cbn [valid_prefix].
  apply in_rangeb_false in Hbad'. rewrite Hbad'. reflexivity.
Qed.

Lemma select_out_of_range_witness :
  fst (select_files_by_indices [0; 5; 1] session)
  = Raise (ValueError "File index out of range.")
  /\ _selected_files (snd (select_files_by_indices [0; 5; 1] session))
     = ["/home/u/a.txt"]
  /\ (forall bad rest, [0; 5; 1] = bad :: rest -> ~ in_range ["a.txt"; "docs"] bad ->
      _selected_files (snd (select_files_by_indices [0; 5; 1] session)) = []).
Proof.
  apply (@select_out_of_range Posix.node posix_OS session ["a.txt"; "docs"] [0; 5; 1]).
  - reflexivity.
  - apply Exists_cons_tl, Exists_cons_hd. unfold in_range, PyList.len; simpl; lia.
Defined.

Example select_5_of_3 :
  let d := Posix.Dir [("a", Posix.File ""); ("b", Posix.File ""); ("c", Posix.File "")] in
  select_files_by_indices [5] (initial_world d "/" None)
  = (Raise (ValueError "File index out of range."),
     World d "/" [] ["a"; "b"; "c"]).
Proof. reflexivity. Qed.

(** ** Navigation *)

Section Navigation.

Context {fs : Type} `{OS fs}.

Lemma navigate_listing_fails (w : world fs) (i : Z) (e : exn) :
  os_listdir (_current_path w) (disk w) = Raise e ->
  navigate_to_index i w = (Raise e, w).
Proof.
  intros Hls. unfold navigate_to_index, list_directory_contents.
  unfold bind at 1. unfold bind at 1. unfold gets at 1, os_try at 1.
  rewrite Hls. reflexivity.
Qed.

Lemma navigate_out_of_range (w : world fs) (contents : list string) (i : Z) :
  os_listdir (_current_path w) (disk w) = Ok contents ->
  ~ in_range contents i ->
  navigate_to_index i w = (Raise (ValueError "Invalid index."), w).
Proof.
  intros Hls Hi. unfold navigate_to_index, list_directory_contents.
  unfold bind at 1. unfold bind at 1. unfold gets at 1, os_try at 1.
  rewrite Hls.
  replace ((i <? 0) || (i >=? PyList.len contents)) with true; [reflexivity|].
  symmetry. apply orb_true_iff. rewrite Z.ltb_lt, Z.geb_le.
  unfold in_range in Hi. lia.
Qed.

Lemma navigate_in_range (w : world fs) (contents : list string) (i : Z) :
  os_listdir (_current_path w) (disk w) = Ok contents ->
  in_range contents i ->
  navigate_to_index i w
  = if os_path_isdir (resolve (_current_path w) contents i) (disk w)
    then (Ok tt, with_current_path (resolve (_current_path w) contents i) w)
    else (Raise (NotADirectoryError
                   (nth (Z.to_nat i) contents "" ++ " is not a directory.")), w).
Proof.
  intros Hls Hi. unfold navigate_to_index, list_directory_contents.
  unfold bind at 1. unfold bind at 1. unfold gets at 1, os_try at 1.
  rewrite Hls.
  replace ((i <? 0) || (i >=? PyList.len contents)) with false.
  - unfold bind at 1, subscript. rewrite (getitem_in_range Hi).
    unfold ret, bind, gets, os_read, resolve.
    destruct (os_path_isdir _ (disk w)); reflexivity.
  - symmetry. apply orb_false_iff. rewrite Z.ltb_ge, Z.geb_leb, Z.leb_gt.
    unfold in_range in Hi. lia.
Qed.

End Navigation.

(** C4. For an index in range for the listing of the current directory:
    when the entry is a directory, [navigate_to_index] succeeds and the
    current path becomes the join of the old path and the entry; when it is
    not, [NotADirectoryError] is raised and nothing changes. *)
Theorem navigate_valid_index :
  forall (fs : Type) (os : OS fs) (w : world fs) (contents : list string) (i : Z),
    os_listdir (_current_path w) (disk w) = Ok contents ->
    in_range contents i ->
    let entry := nth (Z.to_nat i) contents "" in
    let full_path := posixpath.join (_current_path w) entry in
    (os_path_isdir full_path (disk w) = true ->
     navigate_to_index i w = (Ok tt, with_current_path full_path w)
     /\ _current_path (with_current_path full_path w) = full_path)
    /\ (os_path_isdir full_path (disk w) = false ->
        navigate_to_index i w
        = (Raise (NotADirectoryError (entry ++ " is not a directory.")), w)).
Proof.
  intros fs os w contents i Hls Hi entry full_path.
  pose proof (navigate_in_range w Hls Hi) as Hrun.
  unfold resolve in Hrun. fold entry in Hrun. fold full_path in Hrun.
  split; intros Hdir; rewrite Hdir in Hrun.
  - split; [exact Hrun | reflexivity].
  - exact Hrun.
Qed.

Lemma navigate_valid_index_witness :
  (navigate_to_index 1 session = (Ok tt, with_current_path "/home/u/docs" session)
   /\ _current_path (with_current_path "/home/u/docs" session) = "/home/u/docs")
  /\ navigate_to_index 0 session
     = (Raise (NotADirectoryError "a.txt is not a directory."), session).
Proof.
  split.
  - apply (@navigate_valid_index Posix.node posix_OS session ["a.txt"; "docs"] 1).
    + reflexivity.
    + unfold in_range, PyList.len; simpl; lia.
    + reflexivity.
  - apply (@navigate_valid_index Posix.node posix_OS session ["a.txt"; "docs"] 0).
    + reflexivity.
    + unfold in_range, PyList.len; simpl; lia.
    + reflexivity.
Defined.

(** C5. Once the listing of the current directory is obtained,
    [navigate_to_index] raises the [ValueError] of an invalid index exactly
    when the index is below [0] or not below the length of that listing;
    for an index inside the range it raises no [ValueError] at all. *)
Theorem navigate_index_error_iff :
  forall (fs : Type) (os : OS fs) (w : world fs) (contents : list string) (i : Z),
    os_listdir (_current_path w) (disk w) = Ok contents ->
    (fst (navigate_to_index i w) = Raise (ValueError "Invalid index.")
     <-> (i < 0 \/ PyList.len contents <= i))
    /\ (0 <= i < PyList.len contents ->
        forall msg, fst (navigate_to_index i w) <> Raise (ValueError msg)).
Proof.
  intros fs os w contents i Hls.
  assert (Hin : 0 <= i < PyList.len contents ->
                forall msg, fst (navigate_to_index i w) <> Raise (ValueError msg)).
  { intros Hi msg. rewrite (navigate_in_range w Hls Hi).
    destruct (os_path_isdir _ (disk w)); cbn; discriminate. }
  split; [|exact Hin]. split.
  - intros Hraise.
    destruct (Z_lt_dec i 0) as [|Hge]; [left; assumption|].
    destruct (Z_le_dec (PyList.len contents) i) as [|Hlt]; [right; assumption|].
    exfalso. apply (Hin (conj (proj1 (Z.nlt_ge _ _) Hge) (proj1 (Z.nle_gt _ _) Hlt)) _ Hraise).
  - intros Hout. rewrite (navigate_out_of_range w (contents := contents)); [reflexivity|assumption|].
    unfold in_range. lia.
Qed.

Lemma navigate_index_error_iff_witness :
  (fst (navigate_to_index 2 session) = Raise (ValueError "Invalid index.")
   <-> (2 < 0 \/ PyList.len ["a.txt"; "docs"] <= 2))
  /\ (0 <= 2 < PyList.len ["a.txt"; "docs"] ->
      forall msg, fst (navigate_to_index 2 session) <> Raise (ValueError msg)).
Proof.
  apply (@navigate_index_error_iff Posix.node posix_OS session ["a.txt"; "docs"] 2).
  reflexivity.
Defined.

(** C10. Whenever [navigate_to_index] raises, whatever the exception (that
    of the listing, of an invalid index, of an entry that is not a
    directory), the current path is what it was before the call, and so is
    the rest of the world. *)
Theorem navigate_failure_keeps_path :
  forall (fs : Type) (os : OS fs) (w w' : world fs) (i : Z) (e : exn),
    navigate_to_index i w = (Raise e, w') ->
    _current_path w' = _current_path w /\ w' = w.
Proof.
  intros fs os w w' i e Hrun.
  assert (Hw : w' = w); [|split; [rewrite Hw; reflexivity | exact Hw]].
  destruct (os_listdir (_current_path w) (disk w)) as [contents|e0] eqn:Hls.
  - destruct (in_rangeb contents i) eqn:Hb.
    + apply in_rangeb_spec in Hb.
      rewrite (navigate_in_range w Hls Hb) in Hrun.
      destruct (os_path_isdir _ (disk w)); [discriminate|].
      inversion Hrun; reflexivity.
    + apply in_rangeb_false in Hb.
      rewrite (navigate_out_of_range w Hls Hb) in Hrun.
      inversion Hrun; reflexivity.
  - rewrite (navigate_listing_fails w i Hls) in Hrun.
    inversion Hrun; reflexivity.
Qed.

Lemma navigate_failure_keeps_path_witness :
  (navigate_to_index 7 session = (Raise (ValueError "Invalid index."), session)
   /\ _current_path session = "/home/u")
  /\ (navigate_to_index 0 session
      = (Raise (NotADirectoryError "a.txt is not a directory."), session)
      /\ _current_path session = "/home/u").
Proof.
  split; (split; [reflexivity|]).
  - apply (proj1 (@navigate_failure_keeps_path Posix.node posix_OS session session 7
                    (ValueError "Invalid index.") eq_refl)).
  - apply (proj1 (@navigate_failure_keeps_path Posix.node posix_OS session session 0
                    (NotADirectoryError "a.txt is not a directory.") eq_refl)).
Defined.

(** ** The parent directory *)

Lemma length_seps n : String.length (posixpath.seps n) = n.
Proof. induction n; simpl; congruence. Qed.

Lemma rfind_sep_seps n : posixpath.rfind_sep (posixpath.seps (S n)) = Z.of_nat n.
Proof.
  induction n as [|n IH].
  - reflexivity.
  - change (posixpath.seps (S (S n))) with (String posixpath.sep (posixpath.seps (S n))).
    cbn [posixpath.rfind_sep]. rewrite IH.
    destruct (Z.leb_spec 0 (Z.of_nat n)); lia.
Qed.

Lemma substring_whole s : substring 0 (String.length s) s = s.
Proof. induction s; simpl; congruence. Qed.

Lemma dirname_seps n : posixpath.dirname (posixpath.seps n) = posixpath.seps n.
Proof.
  destruct n as [|n]; [reflexivity|].
  unfold posixpath.dirname, posixpath.slice_to.
  rewrite rfind_sep_seps.
  replace (Z.to_nat (Z.of_nat n + 1)) with (String.length (posixpath.seps (S n)))
    by (rewrite length_seps; lia).
  rewrite substring_whole, length_seps, String.eqb_refl.
  rewrite andb_false_r. reflexivity.
Qed.

Lemma dirname_no_sep p : posixpath.rfind_sep p = -1 -> posixpath.dirname p = "".
Proof.
  intros Hno. unfold posixpath.dirname, posixpath.slice_to. rewrite Hno.
  simpl. destruct p; reflexivity.
Qed.

(** C9. [go_to_parent_directory] always succeeds and sets the current path
    to [dirname] of the old one, a function of the path string alone: the
    filesystem is neither read nor changed, whatever its state. On a path
    made of separators only (a root) the path stays as it is, and on a path
    without a separator it becomes empty; neither raises. *)
Theorem go_to_parent_never_fails :
  forall (fs : Type) (w : world fs),
    go_to_parent_directory w
    = (Ok tt, with_current_path (posixpath.dirname (_current_path w)) w)
    /\ (forall d : fs,
          go_to_parent_directory (with_disk d w)
          = (Ok tt, with_disk d (with_current_path (posixpath.dirname (_current_path w)) w)))
    /\ (forall n : nat,
          go_to_parent_directory (with_current_path (posixpath.seps n) w)
          = (Ok tt, with_current_path (posixpath.seps n) w))
    /\ (forall name : string,
          posixpath.rfind_sep name = -1 ->
          go_to_parent_directory (with_current_path name w)
          = (Ok tt, with_current_path "" w)).
Proof.
  intros fs w. split; [reflexivity|]. split; [reflexivity|]. split.
  - intros n. unfold go_to_parent_directory, bind, gets, modify.
    cbn [_current_path with_current_path]. rewrite dirname_seps. reflexivity.
  - intros name Hno. unfold go_to_parent_directory, bind, gets, modify.
    cbn [_current_path with_current_path]. rewrite (dirname_no_sep _ Hno). reflexivity.
Qed.

Lemma go_to_parent_never_fails_witness :
  go_to_parent_directory (with_current_path "home" session)
  = (Ok tt, with_current_path "" session).
Proof.
  apply (proj2 (proj2 (proj2 (@go_to_parent_never_fails Posix.node session))) "home").
  reflexivity.
Defined.

Example parent_of_root :
  go_to_parent_directory (with_current_path "/" session)
  = (Ok tt, with_current_path "/" session).
Proof. reflexivity. Qed.

Example navigate_then_parent :
  (navigate_to_index 1 ;; go_to_parent_directory) session = (Ok tt, session).
Proof. reflexivity. Qed.

(** ** Bulk operations *)

Section Bulk.

Context {fs : Type} `{OS fs}.

Lemma keeps_ret {A} (a : A) : keeps_attrs (@ret fs A a).
Proof. intros w. destruct w; reflexivity. Qed.

Lemma keeps_raise {A} (e : exn) : keeps_attrs (@raise fs A e).
Proof. intros w. destruct w; reflexivity. Qed.

Lemma keeps_os_read {A} (f : fs -> A) : keeps_attrs (os_read f).
Proof. intros w. destruct w; reflexivity. Qed.

Lemma keeps_os_call {A} (f : fs -> result A * fs) : keeps_attrs (os_call f).
Proof. intros w. unfold os_call. destruct (f (disk w)); reflexivity. Qed.

Lemma with_disk_chain (w w1 w2 : world fs) (d1 d2 : fs) :
  w1 = with_disk d1 w -> w2 = with_disk d2 w1 -> w2 = with_disk d2 w.
Proof. intros -> ->. reflexivity. Qed.

Lemma keeps_bind {A B} (m : M fs A) (k : A -> M fs B) :
  keeps_attrs m -> (forall a, keeps_attrs (k a)) -> keeps_attrs (bind m k).
Proof.
  intros Hm Hk w. unfold bind.
  specialize (Hm w). destruct (m w) as [[a|e] w1]; cbn [snd] in *.
  - eapply with_disk_chain; [exact Hm | apply Hk].
  - exact Hm.
Qed.

Lemma keeps_for_each {A} (l : list A) (body : A -> M fs unit) :
  (forall x, keeps_attrs (body x)) -> keeps_attrs (for_each l body).
Proof.
  intros Hbody. induction l as [|x r IH]; cbn [for_each].
  - apply keeps_ret.
  - apply keeps_bind; [apply Hbody | intros _; exact IH].
Qed.

(** The shape the three operations share: read the selection, loop over
    it, clear it. After a loop that raised, the clearing is not reached. *)
Lemma bulk_selection (body : string -> M fs unit) (w : world fs) :
  (forall f, keeps_attrs (body f)) ->
  let run := (files <- get_selected_files ;; for_each files body ;; clear_selection) w in
  _selected_files (snd run) = (if is_ok (fst run) then [] else _selected_files w)
  /\ _current_path (snd run) = _current_path w.
Proof.
  intros Hbody run.
  assert (Hrun : run = match for_each (_selected_files w) body w with
                       | (Ok _, w1) => (Ok tt, with_selected_files [] w1)
                       | (Raise e, w1) => (Raise e, w1)
                       end).
  { subst run. unfold bind, get_selected_files, gets, clear_selection, modify.
    destruct (for_each (_selected_files w) body w) as [[[]|e] w1]; reflexivity. }
  rewrite Hrun. clear Hrun run.
  pose proof (keeps_for_each (_selected_files w) body Hbody w) as Hloop.
  destruct (for_each (_selected_files w) body w) as [[[]|e] w1]; cbn in *.
  - rewrite Hloop. split; reflexivity.
  - rewrite Hloop. split; reflexivity.
Qed.

Lemma keeps_copy_body (destination f : string) :
  keeps_attrs
    (found <- os_read (os_path_exists f) ;;
     if found : bool
     then os_call (shutil_copy2 f destination)
     else raise (FileNotFoundError (f ++ " does not exist."))).
Proof.
  apply keeps_bind; [apply keeps_os_read|].
  intros [|]; [apply keeps_os_call | apply keeps_raise].
Qed.

Lemma keeps_move_body (destination f : string) :
  keeps_attrs
    (found <- os_read (os_path_exists f) ;;
     if found : bool
     then os_call (shutil_move f destination)
     else raise (FileNotFoundError (f ++ " does not exist."))).
Proof.
  apply keeps_bind; [apply keeps_os_read|].
  intros [|]; [apply keeps_os_call | apply keeps_raise].
Qed.

Lemma keeps_delete_body (f : string) :
  keeps_attrs
    (is_file <- os_read (os_path_isfile f) ;;
     if is_file : bool
     then os_call (os_remove f)
     else
       is_dir <- os_read (os_path_isdir f) ;;
       if is_dir : bool
       then os_call (shutil_rmtree f)
       else raise (FileNotFoundError (f ++ " does not exist."))).
Proof.
  apply keeps_bind; [apply keeps_os_read|].
  intros [|]; [apply keeps_os_call|].
  apply keeps_bind; [apply keeps_os_read|].
  intros [|]; [apply keeps_os_call | apply keeps_raise].
Qed.

Lemma copy_files_selection (destination : string) (w : world fs) :
  _selected_files (snd (copy_files destination w))
  = if is_ok (fst (copy_files destination w)) then [] else _selected_files w.
Proof.
  exact (proj1 (bulk_selection _ w (keeps_copy_body destination))).
Qed.

Lemma move_files_selection (destination : string) (w : world fs) :
  _selected_files (snd (move_files destination w))
  = if is_ok (fst (move_files destination w)) then [] else _selected_files w.
Proof.
  exact (proj1 (bulk_selection _ w (keeps_move_body destination))).
Qed.

Lemma delete_files_selection (w : world fs) :
  _selected_files (snd (delete_files w))
  = if is_ok (fst (delete_files w)) then [] else _selected_files w.
Proof.
  exact (proj1 (bulk_selection _ w keeps_delete_body)).
Qed.

End Bulk.

(** C1. After [copy_files], [move_files] and [delete_files] alike: when
    the loop over the selected paths ran to its end without raising, the
    selection is empty; when an exception left the loop, the selection is
    what it was before the call. *)
Theorem bulk_clears_on_success_only :
  forall (fs : Type) (os : OS fs) (w : world fs) (destination : string),
    _selected_files (snd (copy_files destination w))
    = (if is_ok (fst (copy_files destination w)) then [] else _selected_files w)
    /\ _selected_files (snd (move_files destination w))
       = (if is_ok (fst (move_files destination w)) then [] else _selected_files w)
    /\ _selected_files (snd (delete_files w))
       = (if is_ok (fst (delete_files w)) then [] else _selected_files w).
Proof.
  intros fs os w destination. split; [|split].
  - apply copy_files_selection.
  - apply move_files_selection.
  - apply delete_files_selection.
Qed.

(** C1, as stated, fails: a selected path that does not exist makes
    [copy_files] raise [FileNotFoundError], and the selection is still
    there afterwards. *)
Lemma copy_failure_leaves_selection :
  fst (copy_files "/tmp" (selecting ["/home/u/gone.txt"]))
  = Raise (FileNotFoundError "/home/u/gone.txt does not exist.")
  /\ _selected_files (snd (copy_files "/tmp" (selecting ["/home/u/gone.txt"])))
     = ["/home/u/gone.txt"]
  /\ _selected_files (snd (copy_files "/tmp" (selecting ["/home/u/gone.txt"]))) <> [].
Proof.
  split; [reflexivity|]. split; [reflexivity|]. cbn. discriminate.
Qed.

(** C7. A call of [copy_files], [move_files] or [delete_files] that
    returns without raising leaves the selection empty, and
    [clear_selection] always returns and leaves it empty, whatever it was. *)
Theorem success_leaves_selection_empty :
  forall (fs : Type) (os : OS fs) (w w' : world fs) (destination : string),
    (copy_files destination w = (Ok tt, w') -> _selected_files w' = [])
    /\ (move_files destination w = (Ok tt, w') -> _selected_files w' = [])
    /\ (delete_files w = (Ok tt, w') -> _selected_files w' = [])
    /\ (clear_selection w = (Ok tt, with_selected_files [] w)
        /\ _selected_files (snd (clear_selection w)) = []).
Proof.
  intros fs os w w' destination. repeat split.
  - intros Hrun. pose proof (copy_files_selection destination w) as Hsel.
    rewrite Hrun in Hsel. exact Hsel.
  - intros Hrun. pose proof (move_files_selection destination w) as Hsel.
    rewrite Hrun in Hsel. exact Hsel.
  - intros Hrun. pose proof (delete_files_selection w) as Hsel.
    rewrite Hrun in Hsel. exact Hsel.
Qed.

Lemma success_leaves_selection_empty_witness :
  _selected_files (snd (copy_files "/tmp" (selecting ["/home/u/a.txt"]))) = []
  /\ _selected_files (snd (move_files "/tmp" (selecting ["/home/u/a.txt"; "/home/u/docs"]))) = []
  /\ _selected_files (snd (delete_files (selecting ["/home/u/a.txt"; "/home/u/docs"]))) = [].
Proof.
  split; [|split].
  - apply (proj1 (@success_leaves_selection_empty Posix.node posix_OS
                    (selecting ["/home/u/a.txt"])
                    (snd (copy_files "/tmp" (selecting ["/home/u/a.txt"]))) "/tmp")).
    reflexivity.
  - apply (proj1 (proj2 (@success_leaves_selection_empty Posix.node posix_OS
                    (selecting ["/home/u/a.txt"; "/home/u/docs"])
                    (snd (move_files "/tmp" (selecting ["/home/u/a.txt"; "/home/u/docs"])))
                    "/tmp"))).
    reflexivity.
  - apply (proj1 (proj2 (proj2 (@success_leaves_selection_empty Posix.node posix_OS
                    (selecting ["/home/u/a.txt"; "/home/u/docs"])
                    (snd (delete_files (selecting ["/home/u/a.txt"; "/home/u/docs"])))
                    "")))).
    reflexivity.
Defined.

Example delete_file_and_directory :
  delete_files (selecting ["/home/u/a.txt"; "/home/u/docs"])
  = (Ok tt,
     with_disk (Posix.Dir [("home", Posix.Dir [("u", Posix.Dir [])]);
                           ("tmp", Posix.Dir [])]) session).
Proof. reflexivity. Qed.

(** ** Copying a directory *)

(** [shutil.copy2] opens its source as a regular file: on a directory it
    raises, and nothing is written. *)
Lemma copy2_directory_raises (src dst : string) (root : Posix.node) :
  Posix.isdir src root = true ->
  exists e, Posix.copy2 src dst root = (Raise e, root).
Proof.
  intros Hdir. unfold Posix.copy2, Posix.copyfile.
  destruct (Posix.samefile src _ root); [eexists; reflexivity|].
  unfold Posix.isdir in Hdir.
  destruct (Posix.lookup root src) as [e|[data|es]]; try discriminate.
  eexists; reflexivity.
Qed.

(** In [copy_files] a directory at the head of the selection passes the
    [os.path.exists] test and then stops the whole call. *)
Lemma copy_files_directory_first (root : Posix.node) (p f destination : string)
  (rest contents : list string) :
  Posix.isdir f root = true ->
  exists e,
    copy_files destination (World root p (f :: rest) contents)
    = (Raise e, World root p (f :: rest) contents).
Proof.
  intros Hdir.
  destruct (copy2_directory_raises f destination root Hdir) as [e He].
  exists e.
  assert (Hex : Posix.exists_ f root = true).
  { unfold Posix.isdir in Hdir. unfold Posix.exists_.
    destruct (Posix.lookup root f) as [|[|]]; [discriminate|discriminate|reflexivity]. }
  unfold copy_files, bind, get_selected_files, gets. cbn [_selected_files for_each].
  unfold bind, os_read, os_call. cbn [disk os_path_exists shutil_copy2 posix_OS].
  rewrite Hex. cbn [disk]. rewrite He. reflexivity.
Qed.

(** C2. With the directory [/home/u/docs] selected, a path that exists,
    [copy_files] to [/tmp] raises [IsADirectoryError]: the directory is not
    copied, [/tmp] stays empty and the selection stays in place. *)
Theorem copy_files_directory_not_copied :
  os_path_exists "/home/u/docs" (disk (selecting ["/home/u/docs"])) = true
  /\ os_path_isdir "/home/u/docs" (disk (selecting ["/home/u/docs"])) = true
  /\ copy_files "/tmp" (selecting ["/home/u/docs"])
     = (Raise (IsADirectoryError "[Errno 21] Is a directory: '/home/u/docs'"),
        selecting ["/home/u/docs"])
  /\ os_listdir "/tmp" (disk (snd (copy_files "/tmp" (selecting ["/home/u/docs"])))) = Ok [].
Proof. repeat split. Qed.

(** The sibling operations do take the same directory. *)
Example move_files_takes_directory :
  move_files "/tmp" (selecting ["/home/u/docs"])
  = (Ok tt,
     with_disk
       (Posix.Dir
          [("home", Posix.Dir [("u", Posix.Dir [("a.txt", Posix.File "alpha")])]);
           ("tmp", Posix.Dir [("docs", Posix.Dir [("notes.md", Posix.File "notes")])])])
       session).
Proof. reflexivity. Qed.

Example copy_files_takes_file :
  copy_files "/tmp" (selecting ["/home/u/a.txt"])
  = (Ok tt,
     with_disk
       (Posix.Dir
          [("home", Posix.Dir
              [("u", Posix.Dir
                  [("a.txt", Posix.File "alpha");
                   ("docs", Posix.Dir [("notes.md", Posix.File "notes")])])]);
           ("tmp", Posix.Dir [("a.txt", Posix.File "alpha")])])
       session).
Proof. reflexivity. Qed.

(** * Further properties of the methods *)

(** ** Selection: failures and results *)

Section SelectionMore.

Context {fs : Type} `{OS fs}.

Lemma select_listing_raises (w : world fs) (indices : list Z) (e : exn) :
  os_listdir (_current_path w) (disk w) = Raise e ->
  select_files_by_indices indices w = (Raise e, w).
Proof.
  intros Hls.
  unfold select_files_by_indices, load_directory_contents, list_directory_contents.
  unfold bind at 1. unfold bind at 1. unfold bind at 1. unfold gets at 1.
  unfold os_try at 1. rewrite Hls. reflexivity.
Qed.

Lemma Forall_or_Exists_range (contents : list string) (indices : list Z) :
  Forall (in_range contents) indices
  \/ Exists (fun i => ~ in_range contents i) indices.
Proof.
  induction indices as [|i r [Hall|Hex]].
  - left; constructor.
  - destruct (in_rangeb contents i) eqn:Hb.
    + left. constructor; [apply in_rangeb_spec; exact Hb | exact Hall].
    + right. apply Exists_cons_hd. apply in_rangeb_false. exact Hb.
  - right. apply Exists_cons_tl. exact Hex.
Qed.

Lemma select_out_of_range_parts (w : world fs) (contents : list string)
  (indices : list Z) :
  os_listdir (_current_path w) (disk w) = Ok contents ->
  Exists (fun i => ~ in_range contents i) indices ->
  fst (select_files_by_indices indices w) = Raise (ValueError "File index out of range.")
  /\ disk (snd (select_files_by_indices indices w)) = disk w.
Proof.
  intros Hls Hex.
  destruct (valid_prefix_split Hex) as (bad & post & Heq & Hbad).
  pose proof (select_invalid w (pre := valid_prefix contents indices) post Hls
                (valid_prefix_in_range contents indices) Hbad) as Hrun.
  rewrite <- Heq in Hrun. rewrite Hrun. split; reflexivity.
Qed.

End SelectionMore.

(** X1. When [os.listdir] raises, [select_files_by_indices] raises the same
    exception and changes nothing: the selection and the stored listing of
    an earlier call both stay, since the clearing comes after the listing. *)
Theorem select_failed_listing_keeps_all :
  forall (fs : Type) (os : OS fs) (w : world fs) (indices : list Z) (e : exn),
    os_listdir (_current_path w) (disk w) = Raise e ->
    select_files_by_indices indices w = (Raise e, w)
    /\ _selected_files (snd (select_files_by_indices indices w)) = _selected_files w
    /\ _current_directory_contents (snd (select_files_by_indices indices w))
       = _current_directory_contents w.
Proof.
  intros fs os w indices e Hls.
  rewrite (select_listing_raises w indices Hls). repeat split.
Qed.

Lemma select_failed_listing_keeps_all_witness :
  let w := with_current_path "/home/u/gone" (selecting ["/home/u/a.txt"]) in
  select_files_by_indices [0] w
  = (Raise (FileNotFoundError "[Errno 2] No such file or directory: '/home/u/gone'"), w)
  /\ _selected_files (snd (select_files_by_indices [0] w)) = ["/home/u/a.txt"]
  /\ _current_directory_contents (snd (select_files_by_indices [0] w)) = [].
Proof.
  apply (@select_failed_listing_keeps_all Posix.node posix_OS
           (with_current_path "/home/u/gone" (selecting ["/home/u/a.txt"])) [0]
           (FileNotFoundError "[Errno 2] No such file or directory: '/home/u/gone'")).
  reflexivity.
Defined.

(** X2. When the listing succeeds and every index is in range,
    [select_files_by_indices] returns, and leaves as the selection, the
    list of [os.path.join(current, contents[i])] for the indices in the
    order given, one path per index, repeated indices giving repeated
    paths; whatever was selected before is gone, and the listing is stored. *)
Theorem select_resolves_in_order :
  forall (fs : Type) (os : OS fs) (w : world fs) (contents : list string)
         (indices : list Z),
    os_listdir (_current_path w) (disk w) = Ok contents ->
    Forall (in_range contents) indices ->
    let paths :=
      map (fun i => posixpath.join (_current_path w) (nth (Z.to_nat i) contents ""))
        indices in
    fst (select_files_by_indices indices w) = Ok paths
    /\ _selected_files (snd (select_files_by_indices indices w)) = paths
    /\ _current_directory_contents (snd (select_files_by_indices indices w)) = contents
    /\ List.length paths = List.length indices.
Proof.
  intros fs os w contents indices Hls Hall paths.
  rewrite (select_valid w Hls Hall). subst paths.
  repeat split. apply length_map.
Qed.

Lemma select_resolves_in_order_witness :
  fst (select_files_by_indices [1; 0; 1] (selecting ["/old"]))
  = Ok ["/home/u/docs"; "/home/u/a.txt"; "/home/u/docs"]
  /\ _selected_files (snd (select_files_by_indices [1; 0; 1] (selecting ["/old"])))
     = ["/home/u/docs"; "/home/u/a.txt"; "/home/u/docs"]
  /\ _current_directory_contents (snd (select_files_by_indices [1; 0; 1] (selecting ["/old"])))
     = ["a.txt"; "docs"]
  /\ List.length ["/home/u/docs"; "/home/u/a.txt"; "/home/u/docs"] = List.length [1; 0; 1].
Proof.
  apply (@select_resolves_in_order Posix.node posix_OS (selecting ["/old"])
           ["a.txt"; "docs"] [1; 0; 1]).
  - reflexivity.
  - repeat constructor; unfold PyList.len; simpl; lia.
Defined.

(** X3. Once the listing is obtained, [select_files_by_indices] returns
    normally exactly when every index is in range, and raises exactly when
    one is not; a negative index is out of range, it never counts from the
    end of the listing. *)
Theorem select_succeeds_iff_all_in_range :
  forall (fs : Type) (os : OS fs) (w : world fs) (contents : list string)
         (indices : list Z),
    os_listdir (_current_path w) (disk w) = Ok contents ->
    (is_ok (fst (select_files_by_indices indices w)) = true
     <-> Forall (fun i => 0 <= i < PyList.len contents) indices)
    /\ (fst (select_files_by_indices indices w)
        = Raise (ValueError "File index out of range.")
        <-> Exists (fun i => i < 0 \/ PyList.len contents <= i) indices).
Proof.
  intros fs os w contents indices Hls.
  assert (Hout : forall i, ~ in_range contents i <-> (i < 0 \/ PyList.len contents <= i))
    by (intros i; unfold in_range; lia).
  destruct (Forall_or_Exists_range contents indices) as [Hall|Hex].
  - rewrite (select_valid w Hls Hall). cbn [fst is_ok]. split; split; intros Hx.
    + exact Hall.
    + reflexivity.
    + discriminate.
    + exfalso. apply Exists_exists in Hx. destruct Hx as (i & Hin & Hi).
      rewrite Forall_forall in Hall. apply Hout in Hi. exact (Hi (Hall i Hin)).
  - destruct (select_out_of_range_parts w Hls Hex) as [Hraise _].
    rewrite Hraise. cbn [is_ok]. split; split; intros Hx.
    + discriminate.
    + exfalso. apply Exists_exists in Hex. destruct Hex as (i & Hin & Hi).
      rewrite Forall_forall in Hx. exact (Hi (Hx i Hin)).
    + apply Exists_exists in Hex. destruct Hex as (i & Hin & Hi).
      apply Exists_exists. exists i. split; [exact Hin | apply Hout; exact Hi].
    + reflexivity.
Qed.

Lemma select_succeeds_iff_all_in_range_witness :
  (is_ok (fst (select_files_by_indices [0; -1] session)) = true
   <-> Forall (fun i => 0 <= i < PyList.len ["a.txt"; "docs"]) [0; -1])
  /\ (fst (select_files_by_indices [0; -1] session)
      = Raise (ValueError "File index out of range.")
      <-> Exists (fun i => i < 0 \/ PyList.len ["a.txt"; "docs"] <= i) [0; -1]).
Proof.
  apply (@select_succeeds_iff_all_in_range Posix.node posix_OS session
           ["a.txt"; "docs"] [0; -1]).
  reflexivity.
Defined.

(** ** Navigation: what can be raised, what is touched *)

(** X4. [navigate_to_index] raises in three cases only: [os.listdir]
    raised, and that exception comes out; the index is outside the listing,
    with [ValueError]; the entry is not a directory, with
    [NotADirectoryError] naming the entry. The subscript itself never
    raises [IndexError]. *)
Theorem navigate_raises_only :
  forall (fs : Type) (os : OS fs) (w w' : world fs) (i : Z) (e : exn),
    navigate_to_index i w = (Raise e, w') ->
    os_listdir (_current_path w) (disk w) = Raise e
    \/ (exists contents,
          os_listdir (_current_path w) (disk w) = Ok contents
          /\ (i < 0 \/ PyList.len contents <= i)
          /\ e = ValueError "Invalid index.")
    \/ (exists contents,
          os_listdir (_current_path w) (disk w) = Ok contents
          /\ 0 <= i < PyList.len contents
          /\ os_path_isdir
               (posixpath.join (_current_path w) (nth (Z.to_nat i) contents "")) (disk w)
             = false
          /\ e = NotADirectoryError (nth (Z.to_nat i) contents "" ++ " is not a directory.")).
Proof.
  intros fs os w w' i e Hrun.
  destruct (os_listdir (_current_path w) (disk w)) as [contents|e0] eqn:Hls.
  - right. destruct (in_rangeb contents i) eqn:Hb.
    + apply in_rangeb_spec in Hb. right. exists contents.
      rewrite (navigate_in_range w Hls Hb) in Hrun. unfold resolve in Hrun.
      destruct (os_path_isdir _ (disk w)) eqn:Hdir; [discriminate|].
      inversion Hrun; subst. repeat split; [apply Hb | apply Hb].
    + apply in_rangeb_false in Hb. left. exists contents.
      rewrite (navigate_out_of_range w Hls Hb) in Hrun.
      inversion Hrun; subst. repeat split. unfold in_range in Hb. lia.
  - left. rewrite (navigate_listing_fails w i Hls) in Hrun.
    inversion Hrun; reflexivity.
Qed.

Lemma navigate_raises_only_witness :
  os_listdir (_current_path session) (disk session)
  = Raise (NotADirectoryError "a.txt is not a directory.")
  \/ (exists contents,
        os_listdir (_current_path session) (disk session) = Ok contents
        /\ (0 < 0 \/ PyList.len contents <= 0)
        /\ NotADirectoryError "a.txt is not a directory." = ValueError "Invalid index.")
  \/ (exists contents,
        os_listdir (_current_path session) (disk session) = Ok contents
        /\ 0 <= 0 < PyList.len contents
        /\ os_path_isdir
             (posixpath.join (_current_path session) (nth (Z.to_nat 0) contents ""))
             (disk session)
           = false
        /\ NotADirectoryError "a.txt is not a directory."
           = NotADirectoryError (nth (Z.to_nat 0) contents "" ++ " is not a directory.")).
Proof.
  apply (@navigate_raises_only Posix.node posix_OS session session 0
           (NotADirectoryError "a.txt is not a directory.")).
  reflexivity.
Defined.

(** X5. The three methods that move the explorer, [navigate_to_index],
    [go_to_parent_directory] and [set_current_directory], change the current
    path at most: the filesystem, the selection and the stored listing are
    what they were, whether the method returns or raises. Paths selected
    before stay selected after moving to another directory. *)
Theorem navigation_touches_path_only :
  forall (fs : Type) (os : OS fs) (w : world fs) (i : Z) (path : string),
    same_but_path w (snd (navigate_to_index i w))
    /\ same_but_path w (snd (go_to_parent_directory w))
    /\ same_but_path w (snd (set_current_directory path w)).
Proof.
  intros fs os w i path. split; [|split; repeat split].
  destruct (os_listdir (_current_path w) (disk w)) as [contents|e0] eqn:Hls.
  - destruct (in_rangeb contents i) eqn:Hb.
    + apply in_rangeb_spec in Hb. rewrite (navigate_in_range w Hls Hb).
      destruct (os_path_isdir _ (disk w)); repeat split.
    + apply in_rangeb_false in Hb. rewrite (navigate_out_of_range w Hls Hb).
      repeat split.
  - rewrite (navigate_listing_fails w i Hls). repeat split.
Qed.

(** ** Bulk operations: order, failure, what is touched *)

Section BulkMore.

Context {fs : Type} `{OS fs}.

Lemma for_each_app {A} (l1 l2 : list A) (body : A -> M fs unit) (w : world fs) :
  for_each (l1 ++ l2) body w
  = match for_each l1 body w with
    | (Ok _, w1) => for_each l2 body w1
    | (Raise e, w1) => (Raise e, w1)
    end.
Proof.
  revert w. induction l1 as [|x r IH]; intros w; [reflexivity|].
  cbn [app for_each]. unfold bind.
  destruct (body x w) as [[[]|e] w1]; [apply IH | reflexivity].
Qed.

Lemma blind_ret {A} (a : A) : selection_blind (@ret fs A a).
Proof. intros files w. reflexivity. Qed.

Lemma blind_raise {A} (e : exn) : selection_blind (@raise fs A e).
Proof. intros files w. reflexivity. Qed.

Lemma blind_os_read {A} (f : fs -> A) : selection_blind (os_read f).
Proof. intros files w. reflexivity. Qed.

Lemma blind_os_call {A} (f : fs -> result A * fs) : selection_blind (os_call f).
Proof.
  intros files w. unfold os_call. cbn [disk with_selected_files].
  destruct (f (disk w)); reflexivity.
Qed.

Lemma blind_bind {A B} (m : M fs A) (k : A -> M fs B) :
  selection_blind m -> (forall a, selection_blind (k a)) -> selection_blind (bind m k).
Proof.
  intros Hm Hk files w. unfold bind. rewrite (Hm files w).
  destruct (m w) as [[a|e] w1]; cbn [fst snd]; [apply Hk | reflexivity].
Qed.

Lemma blind_for_each {A} (l : list A) (body : A -> M fs unit) :
  (forall x, selection_blind (body x)) -> selection_blind (for_each l body).
Proof.
  intros Hbody. induction l as [|x r IH]; cbn [for_each].
  - apply blind_ret.
  - apply blind_bind; [apply Hbody | intros _; exact IH].
Qed.

Lemma bulk_shape_run (body : string -> M fs unit) (w : world fs) :
  bulk_shape body w
  = match for_each (_selected_files w) body w with
    | (Ok _, w1) => (Ok tt, with_selected_files [] w1)
    | (Raise e, w1) => (Raise e, w1)
    end.
Proof.
  unfold bulk_shape, bind, get_selected_files, gets, clear_selection, modify.
  destruct (for_each (_selected_files w) body w) as [[[]|e] w1]; reflexivity.
Qed.

(** The loop bodies of the three operations, by operation. *)
Lemma run_bulk_shape (op : bulk_op) :
  exists body : string -> M fs unit,
    run_bulk op = bulk_shape body
    /\ (forall f, keeps_attrs (body f))
    /\ (forall f, selection_blind (body f)).
Proof.
  destruct op as [destination|destination|].
  - eexists. split; [reflexivity|]. split; [apply keeps_copy_body|].
    intros f. apply blind_bind; [apply blind_os_read|].
    intros [|]; [apply blind_os_call | apply blind_raise].
  - eexists. split; [reflexivity|]. split; [apply keeps_move_body|].
    intros f. apply blind_bind; [apply blind_os_read|].
    intros [|]; [apply blind_os_call | apply blind_raise].
  - eexists. split; [reflexivity|]. split; [apply keeps_delete_body|].
    intros f. apply blind_bind; [apply blind_os_read|].
    intros [|]; [apply blind_os_call|].
    apply blind_bind; [apply blind_os_read|].
    intros [|]; [apply blind_os_call | apply blind_raise].
Qed.

Lemma bulk_shape_attrs (body : string -> M fs unit) (w : world fs) :
  (forall f, keeps_attrs (body f)) ->
  _current_path (snd (bulk_shape body w)) = _current_path w
  /\ _current_directory_contents (snd (bulk_shape body w)) = _current_directory_contents w.
Proof.
  intros Hbody. rewrite bulk_shape_run.
  pose proof (keeps_for_each (_selected_files w) body Hbody w) as Hloop.
  destruct (for_each (_selected_files w) body w) as [[[]|e] w1]; cbn in *;
    rewrite Hloop; split; reflexivity.
Qed.

Lemma bulk_shape_on (body : string -> M fs unit) (files : list string) (w : world fs) :
  (forall f, selection_blind (body f)) ->
  bulk_shape body (with_selected_files files w)
  = match for_each files body w with
    | (Ok _, w1) => (Ok tt, with_selected_files [] w1)
    | (Raise e, w1) => (Raise e, with_selected_files files w1)
    end.
Proof.
  intros Hblind. rewrite bulk_shape_run. cbn [_selected_files with_selected_files].
  rewrite (blind_for_each files body Hblind files w).
  destruct (for_each files body w) as [[[]|e] w1]; reflexivity.
Qed.

End BulkMore.

(** X6. [copy_files], [move_files] and [delete_files] leave the current
    path of the explorer and the stored listing of the selector as they
    were, whether they return or raise. *)
Theorem bulk_keeps_explorer :
  forall (fs : Type) (os : OS fs) (op : bulk_op) (w : world fs),
    _current_path (snd (run_bulk op w)) = _current_path w
    /\ _current_directory_contents (snd (run_bulk op w)) = _current_directory_contents w.
Proof.
  intros fs os op w.
  destruct (run_bulk_shape op) as (body & -> & Hkeeps & _).
  apply bulk_shape_attrs. exact Hkeeps.
Qed.

(** X7. With nothing selected, each of the three operations returns
    normally and changes nothing at all: no path is tested, the filesystem
    is not touched. *)
Theorem bulk_on_empty_selection :
  forall (fs : Type) (os : OS fs) (op : bulk_op) (w : world fs),
    _selected_files w = [] ->
    run_bulk op w = (Ok tt, w).
Proof.
  intros fs os op w Hsel.
  destruct (run_bulk_shape op) as (body & -> & _ & _).
  rewrite bulk_shape_run, Hsel. cbn.
  destruct w; cbn in *; subst; reflexivity.
Qed.

Lemma bulk_on_empty_selection_witness :
  run_bulk (Move "/nowhere") session = (Ok tt, session)
  /\ run_bulk Delete session = (Ok tt, session).
Proof.
  split.
  - apply (@bulk_on_empty_selection Posix.node posix_OS (Move "/nowhere") session).
    reflexivity.
  - apply (@bulk_on_empty_selection Posix.node posix_OS Delete session).
    reflexivity.
Defined.

(** X8. When the first selected path fails the test of the operation,
    [os.path.exists] for [copy_files] and [move_files], [os.path.isfile] and
    then [os.path.isdir] for [delete_files], the operation raises
    [FileNotFoundError] naming that path and changes nothing: the paths
    after it are not looked at, the selection stays. [delete_files] does so
    for any path that is neither a regular file nor a directory, existing
    or not. *)
Theorem bulk_first_path_missing :
  forall (fs : Type) (os : OS fs) (w : world fs) (f destination : string)
         (rest : list string),
    _selected_files w = f :: rest ->
    (os_path_exists f (disk w) = false ->
     copy_files destination w = (Raise (FileNotFoundError (f ++ " does not exist.")), w)
     /\ move_files destination w = (Raise (FileNotFoundError (f ++ " does not exist.")), w))
    /\ (os_path_isfile f (disk w) = false -> os_path_isdir f (disk w) = false ->
        delete_files w = (Raise (FileNotFoundError (f ++ " does not exist.")), w)).
Proof.
  intros fs os w f destination rest Hsel. split.
  - intros Hex. split.
    + unfold copy_files, bind, get_selected_files, gets. rewrite Hsel.
      cbn [for_each]. unfold bind, os_read. rewrite Hex. reflexivity.
    + unfold move_files, bind, get_selected_files, gets. rewrite Hsel.
      cbn [for_each]. unfold bind, os_read. rewrite Hex. reflexivity.
  - intros Hfile Hdir.
    unfold delete_files, bind, get_selected_files, gets. rewrite Hsel.
    cbn [for_each]. unfold bind, os_read. rewrite Hfile, Hdir. reflexivity.
Qed.

Lemma bulk_first_path_missing_witness :
  let w := selecting ["/home/u/gone.txt"; "/home/u/a.txt"] in
  (copy_files "/tmp" w
   = (Raise (FileNotFoundError "/home/u/gone.txt does not exist."), w)
   /\ move_files "/tmp" w
      = (Raise (FileNotFoundError "/home/u/gone.txt does not exist."), w))
  /\ delete_files w = (Raise (FileNotFoundError "/home/u/gone.txt does not exist."), w).
Proof.
  pose proof (@bulk_first_path_missing Posix.node posix_OS
                (selecting ["/home/u/gone.txt"; "/home/u/a.txt"])
                "/home/u/gone.txt" "/tmp" ["/home/u/a.txt"] eq_refl) as [Hcm Hd].
  split; [apply Hcm | apply Hd]; reflexivity.
Defined.

(** X9. An operation stops at the first path that raises: when it raises
    on a selection, it raises the same exception, with the same filesystem
    left behind, on that selection followed by any further paths. What
    comes after the failing path is never processed. *)
Theorem bulk_stops_at_first_failure :
  forall (fs : Type) (os : OS fs) (op : bulk_op) (w w1 : world fs)
         (pre post : list string) (e : exn),
    run_bulk op (with_selected_files pre w) = (Raise e, w1) ->
    run_bulk op (with_selected_files (pre ++ post) w)
    = (Raise e, with_selected_files (pre ++ post) w1).
Proof.
  intros fs os op w w1 pre post e.
  destruct (run_bulk_shape op) as (body & -> & _ & Hblind).
  rewrite !(bulk_shape_on _ _ w Hblind), for_each_app.
  destruct (for_each pre body w) as [[[]|e0] w2]; [discriminate|].
  intros Hrun. inversion Hrun; subst. reflexivity.
Qed.

Lemma bulk_stops_at_first_failure_witness :
  run_bulk (Copy "/tmp")
    (with_selected_files (["/home/u/a.txt"; "/home/u/docs"] ++ ["/home/u/a.txt"]) session)
  = (Raise (IsADirectoryError "[Errno 21] Is a directory: '/home/u/docs'"),
     with_selected_files (["/home/u/a.txt"; "/home/u/docs"] ++ ["/home/u/a.txt"])
       (snd (run_bulk (Copy "/tmp")
               (with_selected_files ["/home/u/a.txt"; "/home/u/docs"] session)))).
Proof.
  apply (@bulk_stops_at_first_failure Posix.node posix_OS (Copy "/tmp") session).
  reflexivity.
Defined.

(** X10. An operation works through the selection in order, on the
    filesystem the earlier paths left: when it returns normally on a
    selection, then on that selection followed by further paths it gives the
    result, and leaves the filesystem, of running it on the further paths
    alone from where the first run ended. *)
Theorem bulk_runs_in_selection_order :
  forall (fs : Type) (os : OS fs) (op : bulk_op) (w w1 : world fs)
         (pre post : list string),
    run_bulk op (with_selected_files pre w) = (Ok tt, w1) ->
    fst (run_bulk op (with_selected_files (pre ++ post) w))
    = fst (run_bulk op (with_selected_files post w1))
    /\ disk (snd (run_bulk op (with_selected_files (pre ++ post) w)))
       = disk (snd (run_bulk op (with_selected_files post w1))).
Proof.
  intros fs os op w w1 pre post.
  destruct (run_bulk_shape op) as (body & -> & _ & Hblind).
  rewrite !(bulk_shape_on _ _ w Hblind), for_each_app.
  destruct (for_each pre body w) as [[[]|e0] w2]; [|discriminate].
  intros Hrun. inversion Hrun; subst.
  change (with_selected_files post (with_selected_files [] w2))
    with (with_selected_files post w2).
  rewrite (bulk_shape_on _ _ w2 Hblind).
  destruct (for_each post body w2) as [[[]|e] w3]; split; reflexivity.
Qed.

Lemma bulk_runs_in_selection_order_witness :
  fst (run_bulk Delete
         (with_selected_files (["/home/u/docs"] ++ ["/home/u/docs/notes.md"]) session))
  = Raise (FileNotFoundError "/home/u/docs/notes.md does not exist.")
  /\ disk (snd (run_bulk Delete
                  (with_selected_files (["/home/u/docs"] ++ ["/home/u/docs/notes.md"])
                     session)))
     = Posix.Dir
         [("home", Posix.Dir [("u", Posix.Dir [("a.txt", Posix.File "alpha")])]);
          ("tmp", Posix.Dir [])].
Proof.
  exact (@bulk_runs_in_selection_order Posix.node posix_OS Delete session
           (snd (run_bulk Delete (with_selected_files ["/home/u/docs"] session)))
           ["/home/u/docs"] ["/home/u/docs/notes.md"] eq_refl).
Defined.

(** ** Paths: joining, parents, base names *)

Lemma length_app_string (a b : string) :
  String.length (a ++ b) = (String.length a + String.length b)%nat.
Proof. induction a; simpl; congruence. Qed.

Lemma app_String_assoc (a : string) (c : ascii) (b : string) :
  (a ++ String c b)%string = ((a ++ String c "") ++ b)%string.
Proof. induction a; simpl; congruence. Qed.

Lemma substring_app_left (a b : string) :
  substring 0 (String.length a) (a ++ b) = a.
Proof. induction a; simpl; [destruct b; reflexivity | congruence]. Qed.

Lemma substring_app_right (a b : string) :
  substring (String.length a) (String.length b) (a ++ b) = b.
Proof. induction a; simpl; [apply substring_whole | assumption]. Qed.

Lemma length_substring_le (n : nat) (s : string) :
  (String.length (substring 0 n s) <= n)%nat.
Proof.
  revert n. induction s as [|c r IH]; intros [|n]; simpl; try lia.
  specialize (IH n). lia.
Qed.

Lemma rfind_sep_bounds (p : string) :
  -1 <= posixpath.rfind_sep p < Z.of_nat (String.length p).
Proof.
  induction p as [|c r IH]; cbn [posixpath.rfind_sep String.length]; [lia|].
  destruct (Z.leb_spec 0 (posixpath.rfind_sep r)); [lia|].
  destruct (Ascii.eqb c posixpath.sep); lia.
Qed.

Lemma rfind_sep_app (a b : string) :
  posixpath.rfind_sep (a ++ b)
  = if 0 <=? posixpath.rfind_sep b
    then Z.of_nat (String.length a) + posixpath.rfind_sep b
    else posixpath.rfind_sep a.
Proof.
  induction a as [|c r IH].
  - cbn [append String.length posixpath.rfind_sep].
    pose proof (rfind_sep_bounds b).
    destruct (Z.leb_spec 0 (posixpath.rfind_sep b)); lia.
  - cbn [append String.length posixpath.rfind_sep]. rewrite IH.
    pose proof (rfind_sep_bounds b).
    destruct (Z.leb_spec 0 (posixpath.rfind_sep b)); [|reflexivity].
    destruct (Z.leb_spec 0 (Z.of_nat (String.length r) + posixpath.rfind_sep b)); lia.
Qed.

Lemma rfind_sep_endswith (p : string) :
  posixpath.endswith_sep p = true ->
  posixpath.rfind_sep p = Z.of_nat (String.length p) - 1.
Proof.
  induction p as [|c r IH]; [discriminate|].
  cbn [posixpath.endswith_sep posixpath.rfind_sep String.length].
  destruct r as [|c' r'].
  - intros ->. reflexivity.
  - intros Hend. rewrite (IH Hend).
    cbn [String.length].
    destruct (Z.leb_spec 0 (Z.of_nat (S (String.length r')) - 1)); lia.
Qed.

Lemma endswith_rfind_sep (p : string) :
  posixpath.rfind_sep p = Z.of_nat (String.length p) - 1 -> p <> "" ->
  posixpath.endswith_sep p = true.
Proof.
  induction p as [|c r IH]; [congruence|]. intros Hr _.
  cbn [posixpath.endswith_sep posixpath.rfind_sep String.length] in *.
  pose proof (rfind_sep_bounds r) as Hb.
  destruct r as [|c' r'].
  - cbn in Hr. destruct (Ascii.eqb c posixpath.sep); [reflexivity | discriminate].
  - apply IH; [|discriminate].
    destruct (Z.leb_spec 0 (posixpath.rfind_sep (String c' r'))); [lia|].
    cbn [String.length] in *. destruct (Ascii.eqb c posixpath.sep); lia.
Qed.

Lemma endswith_sep_app (p : string) :
  posixpath.endswith_sep (p ++ String posixpath.sep "") = true.
Proof.
  induction p as [|c r IH]; [reflexivity|].
  cbn [append posixpath.endswith_sep].
  destruct (r ++ String posixpath.sep "")%string eqn:Hr; [|exact IH].
  destruct r; discriminate.
Qed.

Lemma rstrip_sep_app (p : string) :
  posixpath.rstrip_sep (p ++ String posixpath.sep "") = posixpath.rstrip_sep p.
Proof.
  induction p as [|c r IH]; [reflexivity|].
  cbn [append posixpath.rstrip_sep]. rewrite IH. reflexivity.
Qed.

Lemma rstrip_sep_id (p : string) :
  posixpath.endswith_sep p = false -> posixpath.rstrip_sep p = p.
Proof.
  induction p as [|c r IH]; [reflexivity|].
  cbn [posixpath.endswith_sep posixpath.rstrip_sep].
  destruct r as [|c' r'].
  - intros ->. reflexivity.
  - intros Hend. rewrite (IH Hend). reflexivity.
Qed.

Lemma length_rstrip_sep (p : string) :
  (String.length (posixpath.rstrip_sep p) <= String.length p)%nat
  /\ (posixpath.endswith_sep p = true ->
      String.length (posixpath.rstrip_sep p) < String.length p)%nat.
Proof.
  induction p as [|c r [IHle IHlt]]; [split; [reflexivity | discriminate]|].
  cbn [posixpath.rstrip_sep posixpath.endswith_sep].
  destruct r as [|c' r'].
  - cbn. destruct (Ascii.eqb c posixpath.sep); cbn; split; intros; try lia; discriminate.
  - destruct (posixpath.rstrip_sep (String c' r')) as [|c'' r''] eqn:Hs.
    + cbn [String.length] in *.
      destruct (Ascii.eqb c posixpath.sep); cbn [String.length]; split; intros; lia.
    + cbn [String.length] in *. split; [lia|]. intros Hend. specialize (IHlt Hend). lia.
Qed.

Lemma endswith_seps (n : nat) : posixpath.endswith_sep (posixpath.seps (S n)) = true.
Proof.
  induction n as [|n IH]; [reflexivity|].
  change (posixpath.seps (S (S n))) with (String posixpath.sep (posixpath.seps (S n))).
  cbn [posixpath.endswith_sep]. exact IH.
Qed.

Lemma seps_app_inv (p : string) (n : nat) :
  (p ++ String posixpath.sep "")%string = posixpath.seps n ->
  p = posixpath.seps (String.length p).
Proof.
  revert n. induction p as [|c r IH]; intros n Heq; [reflexivity|].
  destruct n as [|n]; [discriminate|].
  cbn in Heq. inversion Heq; subst. cbn. f_equal. eapply IH. eassumption.
Qed.

Lemma startswith_no_sep (e : string) :
  posixpath.rfind_sep e = -1 -> posixpath.startswith_sep e = false.
Proof.
  destruct e as [|c r]; [reflexivity|].
  cbn [posixpath.rfind_sep posixpath.startswith_sep].
  pose proof (rfind_sep_bounds r).
  destruct (Z.leb_spec 0 (posixpath.rfind_sep r)); [lia|].
  destruct (Ascii.eqb c posixpath.sep); [discriminate | reflexivity].
Qed.

(** The three shapes of [join] with a name that holds no separator. *)
Lemma join_cases (p e : string) :
  posixpath.rfind_sep e = -1 ->
  (p = "" /\ posixpath.join p e = e)
  \/ (p <> "" /\ posixpath.endswith_sep p = true /\ posixpath.join p e = (p ++ e)%string)
  \/ (p <> "" /\ posixpath.endswith_sep p = false
      /\ posixpath.join p e = ((p ++ String posixpath.sep "") ++ e)%string).
Proof.
  intros He. unfold posixpath.join. rewrite (startswith_no_sep e He). cbn [orb].
  destruct p as [|c r]; [left; split; reflexivity|].
  right. change (String.eqb (String c r) "") with false. cbv iota.
  destruct (posixpath.endswith_sep (String c r)).
  - left. repeat split. discriminate.
  - right. repeat split; [discriminate|]. apply app_String_assoc.
Qed.

Lemma basename_join (p e : string) :
  posixpath.rfind_sep e = -1 -> posixpath.basename (posixpath.join p e) = e.
Proof.
  intros He. unfold posixpath.basename, posixpath.slice_from.
  destruct (join_cases p e He) as [[_ ->] | [(_ & Hend & ->) | (_ & Hend & ->)]].
  - rewrite He. cbn [Z.add Z.to_nat]. rewrite Nat.sub_0_r. apply substring_whole.
  - rewrite rfind_sep_app, He. cbn [Z.leb Z.compare]. rewrite (rfind_sep_endswith _ Hend).
    replace (Z.to_nat (Z.of_nat (String.length p) - 1 + 1)) with (String.length p) by lia.
    rewrite length_app_string.
    replace (String.length p + String.length e - String.length p)%nat
      with (String.length e) by lia.
    apply substring_app_right.
  - rewrite rfind_sep_app, He. cbn [Z.leb Z.compare].
    rewrite (rfind_sep_endswith _ (endswith_sep_app p)).
    set (q := (p ++ String posixpath.sep "")%string).
    replace (Z.to_nat (Z.of_nat (String.length q) - 1 + 1)) with (String.length q) by lia.
    rewrite length_app_string.
    replace (String.length q + String.length e - String.length q)%nat
      with (String.length e) by lia.
    apply substring_app_right.
Qed.

Lemma dirname_join (p e : string) :
  posixpath.rfind_sep e = -1 ->
  posixpath.endswith_sep p = false \/ p = posixpath.seps (String.length p) ->
  posixpath.dirname (posixpath.join p e) = p.
Proof.
  intros He Hp.
  destruct (join_cases p e He) as [[-> ->] | [(Hne & Hend & ->) | (Hne & Hend & ->)]].
  - apply dirname_no_sep. exact He.
  - destruct Hp as [Hp|Hp]; [congruence|].
    unfold posixpath.dirname, posixpath.slice_to.
    rewrite rfind_sep_app, He. cbn [Z.leb Z.compare]. rewrite (rfind_sep_endswith _ Hend).
    replace (Z.to_nat (Z.of_nat (String.length p) - 1 + 1)) with (String.length p) by lia.
    rewrite substring_app_left. rewrite <- Hp, String.eqb_refl, andb_false_r.
    reflexivity.
  - unfold posixpath.dirname, posixpath.slice_to.
    rewrite rfind_sep_app, He. cbn [Z.leb Z.compare].
    rewrite (rfind_sep_endswith _ (endswith_sep_app p)).
    set (q := (p ++ String posixpath.sep "")%string).
    replace (Z.to_nat (Z.of_nat (String.length q) - 1 + 1)) with (String.length q) by lia.
    rewrite substring_app_left.
    assert (Hq1 : String.eqb q "" = false).
    { apply String.eqb_neq. subst q. destruct p; discriminate. }
    assert (Hq2 : String.eqb q (posixpath.seps (String.length q)) = false).
    { apply String.eqb_neq. intros Hq. subst q. apply seps_app_inv in Hq.
      destruct (String.length p) as [|n] eqn:Hlen.
      - destruct p; [congruence | discriminate].
      - rewrite Hq, endswith_seps in Hend. discriminate. }
    rewrite Hq1, Hq2. cbn [negb andb]. subst q.
    rewrite rstrip_sep_app. apply rstrip_sep_id. exact Hend.
Qed.

Lemma dirname_shorter (p : string) :
  p <> posixpath.seps (String.length p) ->
  (String.length (posixpath.dirname p) < String.length p)%nat.
Proof.
  intros Hp. unfold posixpath.dirname, posixpath.slice_to.
  pose proof (rfind_sep_bounds p) as Hb.
  set (n := Z.to_nat (posixpath.rfind_sep p + 1)).
  destruct (Nat.eq_dec n (String.length p)) as [Hn|Hn].
  - rewrite Hn, substring_whole.
    assert (Hne : p <> "") by (intros ->; apply Hp; reflexivity).
    apply String.eqb_neq in Hne. apply String.eqb_neq in Hp as Hp'.
    rewrite Hne, Hp'. cbn [negb andb].
    apply length_rstrip_sep. apply endswith_rfind_sep.
    + subst n. lia.
    + apply String.eqb_neq. exact Hne.
  - pose proof (length_substring_le n p) as Hle.
    assert (Hlt : (n < String.length p)%nat) by (subst n; lia).
    destruct (negb _ && negb _).
    + pose proof (proj1 (length_rstrip_sep (substring 0 n p))). lia.
    + lia.
Qed.

Lemma iter_dirname_seps (n k : nat) :
  Nat.iter n posixpath.dirname (posixpath.seps k) = posixpath.seps k.
Proof.
  induction n as [|n IH]; [reflexivity|].
  rewrite Nat.iter_succ, IH. apply dirname_seps.
Qed.

Lemma iter_dirname_reaches_seps (n : nat) :
  forall p : string,
    (String.length p <= n)%nat ->
    exists k, Nat.iter n posixpath.dirname p = posixpath.seps k.
Proof.
  induction n as [|n IH]; intros p Hlen.
  - destruct p; [exists 0%nat; reflexivity | cbn in Hlen; lia].
  - rewrite Nat.iter_succ_r.
    destruct (string_dec p (posixpath.seps (String.length p))) as [Hp|Hp].
    + exists (String.length p). rewrite Hp at 1. rewrite dirname_seps.
      apply iter_dirname_seps.
    + apply IH. pose proof (dirname_shorter Hp). lia.
Qed.

Lemma iter_parent_path {fs} (n : nat) (w : world fs) :
  _current_path (Nat.iter n (fun w => snd (go_to_parent_directory w)) w)
  = Nat.iter n posixpath.dirname (_current_path w).
Proof.
  induction n as [|n IH]; [reflexivity|].
  rewrite !Nat.iter_succ, <- IH. reflexivity.
Qed.

(** X11. Entering a sub-directory and going to the parent comes back: when
    the entry at an in-range index is a directory whose name holds no
    separator, and the current path does not end with a separator (or is
    made of separators only, a root), [navigate_to_index] followed by
    [go_to_parent_directory] returns normally and leaves the world as it
    was. *)
Theorem navigate_then_parent_returns :
  forall (fs : Type) (os : OS fs) (w : world fs) (contents : list string) (i : Z),
    os_listdir (_current_path w) (disk w) = Ok contents ->
    0 <= i < PyList.len contents ->
    os_path_isdir (posixpath.join (_current_path w) (nth (Z.to_nat i) contents ""))
      (disk w) = true ->
    posixpath.rfind_sep (nth (Z.to_nat i) contents "") = -1 ->
    posixpath.endswith_sep (_current_path w) = false
    \/ _current_path w = posixpath.seps (String.length (_current_path w)) ->
    (navigate_to_index i ;; go_to_parent_directory) w = (Ok tt, w).
Proof.
  intros fs os w contents i Hls Hi Hdir Hname Hpath.
  unfold bind at 1. rewrite (navigate_in_range w Hls Hi). unfold resolve.
  rewrite Hdir. unfold go_to_parent_directory, bind, gets, modify.
  cbn [_current_path with_current_path].
  rewrite (@dirname_join _ _ Hname Hpath). destruct w; reflexivity.
Qed.

Lemma navigate_then_parent_returns_witness :
  (navigate_to_index 1 ;; go_to_parent_directory) session = (Ok tt, session).
Proof.
  apply (@navigate_then_parent_returns Posix.node posix_OS session ["a.txt"; "docs"] 1).
  - reflexivity.
  - unfold PyList.len; simpl; lia.
  - reflexivity.
  - reflexivity.
  - left. reflexivity.
Defined.

(** With a trailing separator in the current path the way back ends one
    separator short of where it started. *)
Example navigate_then_parent_trailing_sep :
  (navigate_to_index 1 ;; go_to_parent_directory) (with_current_path "/home/u/" session)
  = (Ok tt, session).
Proof. reflexivity. Qed.

(** X12. [go_to_parent_directory] makes the current path strictly shorter
    unless it is empty or made of separators only; called as many times as
    the path has characters, it ends on such a path, where it then stays. *)
Theorem parent_shortens_until_root :
  forall (fs : Type) (w : world fs),
    (_current_path w <> posixpath.seps (String.length (_current_path w)) ->
     (String.length (_current_path (snd (go_to_parent_directory w)))
      < String.length (_current_path w))%nat)
    /\ exists k : nat,
         _current_path
           (Nat.iter (String.length (_current_path w))
              (fun w => snd (go_to_parent_directory w)) w)
         = posixpath.seps k.
Proof.
  intros fs w. split.
  - intros Hp. apply (dirname_shorter Hp).
  - rewrite iter_parent_path. apply iter_dirname_reaches_seps. reflexivity.
Qed.

Lemma parent_shortens_until_root_witness :
  (String.length (_current_path (snd (go_to_parent_directory session)))
   < String.length (_current_path session))%nat.
Proof.
  apply (proj1 (@parent_shortens_until_root Posix.node session)).
  discriminate.
Defined.

Example parents_of_home_u :
  _current_path (Nat.iter 7 (fun w => snd (go_to_parent_directory w)) session) = "/".
Proof. reflexivity. Qed.

(** X13. The base name of a selected path is the entry it was made from:
    when the listing succeeds, its names hold no separator and every index
    is in range, [os.path.basename] over the list [select_files_by_indices]
    returns gives back the entries at those indices, in order. *)
Theorem selected_basenames_are_entries :
  forall (fs : Type) (os : OS fs) (w : world fs) (contents : list string)
         (indices : list Z),
    os_listdir (_current_path w) (disk w) = Ok contents ->
    Forall (fun name => posixpath.rfind_sep name = -1) contents ->
    Forall (fun i => 0 <= i < PyList.len contents) indices ->
    exists paths,
      fst (select_files_by_indices indices w) = Ok paths
      /\ map posixpath.basename paths
         = map (fun i => nth (Z.to_nat i) contents "") indices.
Proof.
  intros fs os w contents indices Hls Hnames Hall.
  rewrite (select_valid w Hls Hall). eexists. split; [reflexivity|].
  rewrite map_map. apply map_ext_in. intros i Hi. unfold resolve.
  apply basename_join.
  rewrite Forall_forall in Hall, Hnames. apply Hnames. apply nth_In.
  specialize (Hall i Hi). unfold PyList.len in Hall. lia.
Qed.

Lemma selected_basenames_are_entries_witness :
  exists paths,
    fst (select_files_by_indices [1; 0] session) = Ok paths
    /\ map posixpath.basename paths
       = map (fun i => nth (Z.to_nat i) ["a.txt"; "docs"] "") [1; 0].
Proof.
  apply (@selected_basenames_are_entries Posix.node posix_OS session ["a.txt"; "docs"] [1; 0]).
  - reflexivity.
  - repeat constructor.
  - repeat constructor; unfold PyList.len; simpl; lia.
Defined.

(** * The menu *)

Section DriverFacts.

Context {fs : Type} `{OS fs} `{Builtins}.

Local Open Scope io_scope.

Lemma wrote_wrote (c : console) (l1 l2 : list string) :
  wrote (wrote c l1) l2 = wrote c (l1 ++ l2).
Proof. unfold wrote. cbn. rewrite map_app, app_assoc. reflexivity. Qed.

Lemma wrote_nil (c : console) : wrote c [] = c.
Proof. unfold wrote. cbn. rewrite app_nil_r. destruct c; reflexivity. Qed.

Lemma print_wrote (line : string) (c : console) (w : world fs) :
  print line c w = (Return tt, wrote c [line], w).
Proof. reflexivity. Qed.

Lemma enumerate_entries (contents : list string) :
  forall (index : nat) (c : console) (w : world fs),
    io_for_enumerate index contents (fun index element =>
      p <- call get_current_directory ;;
      let full_path := posixpath.join p element in
      is_dir <- call (os_read (os_path_isdir full_path)) ;;
      let element_type := if is_dir : bool then "📁 Folder" else "📄 File" in
      print (str_nat index ++ ". " ++ element_type ++ ": " ++ element)) c w
    = (Return tt, wrote c (entry_lines w index contents), w).
Proof.
  induction contents as [|element r IH]; intros index c w.
  - cbn. rewrite wrote_nil. reflexivity.
  - cbn [io_for_enumerate entry_lines].
    unfold io_bind at 1. unfold io_bind at 1. cbn [call get_current_directory gets].
    unfold io_bind at 1. cbn [call os_read].
    rewrite print_wrote, IH, wrote_wrote. reflexivity.
Qed.

Lemma display_run (c : console) (w : world fs) :
  display_directory_contents c w = (Return tt, wrote c (display_lines w), w).
Proof.
  unfold display_directory_contents, try_except, display_lines.
  unfold io_bind at 1. unfold call at 1, list_directory_contents, bind, gets, os_try.
  destruct (os_listdir (_current_path w) (disk w)) as [contents|e].
  - unfold io_bind at 1. cbn [call get_current_directory gets].
    unfold io_bind at 1. rewrite print_wrote.
    unfold io_bind at 1. rewrite print_wrote.
    rewrite enumerate_entries, !wrote_wrote. reflexivity.
  - destruct e; reflexivity.
Qed.

(** *** Reading forward *)

Lemma reads_ret {A} (a : A) : reads_on (@io_ret fs A a).
Proof. intros c w. cbn. lia. Qed.

Lemma reads_print (line : string) : reads_on (@print fs line).
Proof. intros c w. cbn. lia. Qed.

Lemma reads_input (prompt : string) : reads_on (@input fs prompt).
Proof. intros c w. unfold input. destruct (stdin c); cbn; lia. Qed.

Lemma reads_call {A} (m : M fs A) : reads_on (call m).
Proof. intros c w. unfold call. destruct (m w) as [[a|e] w']; cbn; lia. Qed.

Lemma reads_io_try {A} (r : result A) : reads_on (@io_try fs A r).
Proof. intros c w. destruct r; cbn; lia. Qed.

Lemma reads_display : reads_on display_directory_contents.
Proof. intros c w. rewrite display_run. cbn. lia. Qed.

Lemma reads_bind {A B} (m : IO fs A) (k : A -> IO fs B) :
  reads_on m -> (forall a, reads_on (k a)) -> reads_on (io_bind m k).
Proof.
  intros Hm Hk c w. unfold io_bind. specialize (Hm c w).
  destruct (m c w) as [[[a|s] c1] w1]; cbn [fst snd] in *; [|exact Hm].
  specialize (Hk a c1 w1). lia.
Qed.

Lemma reads_for_each {A} (l : list A) (body : A -> IO fs unit) :
  (forall x, reads_on (body x)) -> reads_on (io_for_each l body).
Proof.
  intros Hbody. induction l as [|x r IH]; cbn [io_for_each].
  - apply reads_ret.
  - apply reads_bind; [apply Hbody | intros _; exact IH].
Qed.

Lemma reads_try_except {A} (m : IO fs A) (handler : signal -> IO fs A) :
  reads_on m -> (forall s, reads_on (handler s)) -> reads_on (try_except m handler).
Proof.
  intros Hm Hh c w. unfold try_except. specialize (Hm c w).
  destruct (m c w) as [[[a|s] c1] w1]; cbn [fst snd] in *; [exact Hm|].
  specialize (Hh s c1 w1). lia.
Qed.

(** *** Leaving the loop *)

Lemma polite_ret_false : breaks_politely (@io_ret fs bool false).
Proof. intros c c' w w' Hrun. discriminate. Qed.

Lemma polite_bind {A} (m : IO fs A) (k : A -> IO fs bool) :
  (forall a, breaks_politely (k a)) -> breaks_politely (io_bind m k).
Proof.
  intros Hk c c' w w'. unfold io_bind.
  destruct (m c w) as [[[a|s] c1] w1]; [apply Hk | discriminate].
Qed.

Lemma polite_goodbye : breaks_politely (@print fs "Goodbye!" ;; io_ret true).
Proof.
  intros c c' w w' Hrun. cbn in Hrun. inversion Hrun; subst.
  exists (stdout c). reflexivity.
Qed.

Lemma polite_try_except (m : IO fs bool) (handler : signal -> IO fs bool) :
  breaks_politely m -> (forall s, breaks_politely (handler s)) ->
  breaks_politely (try_except m handler).
Proof.
  intros Hm Hh c c' w w'. unfold try_except.
  destruct (m c w) as [[[b|s] c1] w1] eqn:Hrun.
  - intros Heq. inversion Heq; subst. eapply Hm. exact Hrun.
  - apply Hh.
Qed.

End DriverFacts.

Section MenuFacts.

Context {fs : Type} `{OS fs} `{Builtins}.

Local Open Scope io_scope.

Ltac reads_forward :=
  repeat first
    [ apply reads_ret | apply reads_print | apply reads_input | apply reads_call
    | apply reads_io_try | apply reads_display
    | apply reads_for_each; intros
    | apply reads_bind; [|intros]
    | match goal with |- reads_on (if ?b then _ else _) => destruct b end
    | progress cbv beta zeta ].

Ltac polite :=
  repeat first
    [ apply polite_goodbye | apply polite_ret_false
    | apply polite_try_except; [|intros]
    | apply polite_bind; intros
    | match goal with |- breaks_politely (if ?b then _ else _) => destruct b end
    | progress cbv beta zeta ].

(** A [try] whose handler returns lets nothing out. *)
Lemma try_except_returns {A} (m : IO fs A) (handler : signal -> IO fs A)
  (c : console) (w : world fs) :
  reads_on m ->
  (forall s, reads_on (handler s)) ->
  (forall s c w, exists a c' w', handler s c w = (Return a, c', w')) ->
  exists a c' w',
    try_except m handler c w = (Return a, c', w')
    /\ (List.length (stdin c') <= List.length (stdin c))%nat.
Proof.
  intros Hm Hh Hret.
  pose proof (reads_try_except handler Hm Hh c w) as Hlen.
  unfold try_except in *.
  destruct (m c w) as [[[a|s] c1] w1].
  - exists a, c1, w1. split; [reflexivity | exact Hlen].
  - destruct (Hret s c1 w1) as (a & c2 & w2 & Hrun).
    rewrite Hrun in *. exists a, c2, w2. split; [reflexivity | exact Hlen].
Qed.

Lemma menu_turn_polite : breaks_politely menu_turn.
Proof. unfold menu_turn. polite. Qed.

Lemma menu_turn_facts (c : console) (w : world fs) :
  match menu_turn c w with
  | (Throw s, c', w') => s = EOFError /\ stdin c = [] /\ stdin c' = [] /\ w' = w
  | (Return _, c', _) => (List.length (stdin c') < List.length (stdin c))%nat
  end.
Proof.
  unfold menu_turn.
  do 9 (unfold io_bind at 1; unfold print at 1).
  unfold io_bind at 1. unfold input at 1. cbn [stdin stdout].
  destruct (stdin c) as [|line rest] eqn:Hin.
  - repeat split.
  - cbv zeta.
    match goal with
    | |- context [try_except ?m ?h ?c1 w] =>
        destruct (@try_except_returns bool m h c1 w) as (b & c' & w' & Hrun & Hlen)
    end.
    + reads_forward.
    + intros s. reads_forward.
    + intros s c1 w1. eexists _, _, _. reflexivity.
    + rewrite Hrun. cbn [stdin List.length] in *. lia.
Qed.

Lemma menu_loop_ends (fuel : nat) :
  forall (c : console) (w : world fs),
    (List.length (stdin c) < fuel)%nat ->
    ends_well (menu_loop fuel c w).
Proof.
  induction fuel as [|fuel IH]; intros c w Hfuel; [lia|].
  cbn [menu_loop]. unfold io_bind.
  pose proof (menu_turn_facts c w) as Hturn.
  pose proof menu_turn_polite as Hbye.
  destruct (menu_turn c w) as [[[b|s] c1] w1] eqn:Hrun.
  - destruct b.
    + cbn. eapply Hbye. exact Hrun.
    + apply IH. lia.
  - cbn. destruct Hturn as (-> & _ & Hin & _). split; [reflexivity | exact Hin].
Qed.

End MenuFacts.

Lemma length_entry_lines {fs} `{OS fs} (w : world fs) (contents : list string) :
  forall index, List.length (entry_lines w index contents) = List.length contents.
Proof.
  induction contents as [|x r IH]; intros index; cbn; [reflexivity|].
  rewrite IH. reflexivity.
Qed.


Example display_home_u :
  display_lines session
  = [(newline ++ "Current Directory: /home/u")%string;
     "--------------------------------------------------";
     "0. 📄 File: a.txt";
     "1. 📁 Folder: docs"].
Proof. reflexivity. Qed.



Example main_menu_quits :
  let r := main_menu "/home/u" (Console ["2"; "0"; " 8 "; "1"] []) home_u in
  fst (fst r) = Return (Some tt)
  /\ stdin (snd (fst r)) = ["1"]
  /\ last (stdout (snd (fst r))) (Printed "") = Printed "Goodbye!"
  /\ In (Printed "An error occurred: a.txt is not a directory.") (stdout (snd (fst r))).
Proof. vm_compute. repeat split. right. repeat (try (left; reflexivity); right). Qed.



(** ** The explorer and the selector, method by method *)

(** [set_current_directory] takes any string without a test, whatever the
    filesystem holds: it returns normally, [get_current_directory] then
    returns that string, and it is the next listing that reports a bad path,
    with the result of [os.listdir] on it. *)
Lemma set_current_directory_defers_check :
  forall (fs : Type) (os : OS fs) (w : world fs) (path : string),
    set_current_directory path w = (Ok tt, with_current_path path w)
    /\ (set_current_directory path ;; get_current_directory) w
       = (Ok path, with_current_path path w)
    /\ (set_current_directory path ;; list_directory_contents) w
       = (os_listdir path (disk w), with_current_path path w).
Proof. intros fs os w path. repeat split. Qed.

(** [load_directory_contents] returns the listing of the current directory
    and stores it; when [os.listdir] raises, the exception comes out and
    the listing stored before stays. *)
Lemma load_directory_contents_stores :
  forall (fs : Type) (os : OS fs) (w : world fs),
    match os_listdir (_current_path w) (disk w) with
    | Ok contents =>
        load_directory_contents w = (Ok contents, with_current_directory_contents contents w)
    | Raise e => load_directory_contents w = (Raise e, w)
    end.
Proof.
  intros fs os w.
  unfold load_directory_contents, list_directory_contents, bind, gets, os_try, modify.
  destruct (os_listdir (_current_path w) (disk w)); reflexivity.
Qed.

(** ** Selection and bulk operations together *)

Section Together.

Context {fs : Type} `{OS fs}.

Lemma for_each_raises {A} (l : list A) (body : A -> M fs unit) :
  forall (w w' : world fs) (e : exn),
    for_each l body w = (Raise e, w') ->
    exists x w1, In x l /\ body x w1 = (Raise e, w').
Proof.
  induction l as [|x r IH]; intros w w' e Hrun; [discriminate|].
  cbn [for_each] in Hrun. unfold bind in Hrun.
  destruct (body x w) as [[[]|e0] w1] eqn:Hbody.
  - destruct (IH _ _ _ Hrun) as (y & w2 & Hin & Hy).
    exists y, w2. split; [right; exact Hin | exact Hy].
  - inversion Hrun; subst. exists x, w. split; [left; reflexivity | exact Hbody].
Qed.

Lemma bulk_shape_raises (body : string -> M fs unit) (w w' : world fs) (e : exn) :
  bulk_shape body w = (Raise e, w') ->
  exists f w1, In f (_selected_files w) /\ body f w1 = (Raise e, w').
Proof.
  rewrite bulk_shape_run. intros Hrun.
  destruct (for_each (_selected_files w) body w) as [[[]|e0] w1] eqn:Hloop;
    [discriminate|].
  inversion Hrun; subst. eapply for_each_raises. exact Hloop.
Qed.

Lemma run_bulk_empty (op : bulk_op) (w : world fs) :
  _selected_files w = [] -> run_bulk op w = (Ok tt, w).
Proof.
  intros Hsel. destruct (run_bulk_shape op) as (body & -> & _ & _).
  rewrite bulk_shape_run, Hsel. cbn.
  destruct w; cbn in *; subst; reflexivity.
Qed.

Lemma run_bulk_ok_empties (op : bulk_op) (w w1 : world fs) :
  run_bulk op w = (Ok tt, w1) -> _selected_files w1 = [].
Proof.
  intros Hrun. destruct (run_bulk_shape op) as (body & Hop & Hkeeps & _).
  rewrite Hop in Hrun.
  pose proof (proj1 (bulk_selection body w Hkeeps)) as Hsel.
  unfold bulk_shape in Hrun. rewrite Hrun in Hsel. exact Hsel.
Qed.

End Together.

(** X18. [select_files_by_indices] never changes the filesystem nor the
    current path, whether it returns, stops at an index out of range or
    fails to list the directory: all it writes is the selection and the
    stored listing. *)
Theorem select_reads_only :
  forall (fs : Type) (os : OS fs) (w : world fs) (indices : list Z),
    disk (snd (select_files_by_indices indices w)) = disk w
    /\ _current_path (snd (select_files_by_indices indices w)) = _current_path w.
Proof.
  intros fs os w indices.
  destruct (os_listdir (_current_path w) (disk w)) as [contents|e] eqn:Hls.
  - destruct (Forall_or_Exists_range contents indices) as [Hall|Hex].
    + rewrite (select_valid w Hls Hall). split; reflexivity.
    + destruct (valid_prefix_split Hex) as (bad & post & Heq & Hbad).
      pose proof (select_invalid w (pre := valid_prefix contents indices) post Hls
                    (valid_prefix_in_range contents indices) Hbad) as Hrun.
      rewrite <- Heq in Hrun. rewrite Hrun. split; reflexivity.
  - rewrite (select_listing_raises w indices Hls). split; reflexivity.
Qed.

(** X19. After an operation that returned normally the selection is used
    up: any operation called next, without a new selection, returns
    normally and does nothing, to the filesystem or otherwise. *)
Theorem bulk_after_success_does_nothing :
  forall (fs : Type) (os : OS fs) (op1 op2 : bulk_op) (w w1 : world fs),
    run_bulk op1 w = (Ok tt, w1) ->
    run_bulk op2 w1 = (Ok tt, w1).
Proof.
  intros fs os op1 op2 w w1 Hrun.
  apply run_bulk_empty. eapply run_bulk_ok_empties. exact Hrun.
Qed.

Lemma bulk_after_success_does_nothing_witness :
  run_bulk Delete (snd (run_bulk (Copy "/tmp") (selecting ["/home/u/a.txt"])))
  = (Ok tt, snd (run_bulk (Copy "/tmp") (selecting ["/home/u/a.txt"]))).
Proof.
  apply (@bulk_after_success_does_nothing Posix.node posix_OS (Copy "/tmp") Delete
           (selecting ["/home/u/a.txt"])).
  reflexivity.
Defined.

(** X20. What the three operations can raise. [copy_files] and
    [move_files] raise either [FileNotFoundError] naming a selected path, or
    what [shutil.copy2], respectively [shutil.move], raised on a selected
    path that existed. [delete_files] raises either [FileNotFoundError]
    naming a selected path, or what [os.remove] raised on a selected regular
    file, or what [shutil.rmtree] raised on a selected directory. *)
Theorem bulk_raises_only :
  forall (fs : Type) (os : OS fs) (w w' : world fs) (destination : string) (e : exn),
    (copy_files destination w = (Raise e, w') ->
     exists f, In f (_selected_files w)
       /\ (e = FileNotFoundError (f ++ " does not exist.")
           \/ exists d, os_path_exists f d = true
                        /\ fst (shutil_copy2 f destination d) = Raise e))
    /\ (move_files destination w = (Raise e, w') ->
        exists f, In f (_selected_files w)
          /\ (e = FileNotFoundError (f ++ " does not exist.")
              \/ exists d, os_path_exists f d = true
                           /\ fst (shutil_move f destination d) = Raise e))
    /\ (delete_files w = (Raise e, w') ->
        exists f, In f (_selected_files w)
          /\ (e = FileNotFoundError (f ++ " does not exist.")
              \/ (exists d, os_path_isfile f d = true /\ fst (os_remove f d) = Raise e)
              \/ (exists d, os_path_isfile f d = false /\ os_path_isdir f d = true
                            /\ fst (shutil_rmtree f d) = Raise e))).
Proof.
  intros fs os w w' destination e. split; [|split]; intros Hrun;
    apply bulk_shape_raises in Hrun; destruct Hrun as (f & w1 & Hin & Hbody);
    exists f; (split; [exact Hin|]); unfold bind, os_read, os_call, raise in Hbody.
  - destruct (os_path_exists f (disk w1)) eqn:Hex.
    + right. exists (disk w1). split; [exact Hex|].
      destruct (shutil_copy2 f destination (disk w1)) as [r d].
      inversion Hbody; reflexivity.
    + left. inversion Hbody; reflexivity.
  - destruct (os_path_exists f (disk w1)) eqn:Hex.
    + right. exists (disk w1). split; [exact Hex|].
      destruct (shutil_move f destination (disk w1)) as [r d].
      inversion Hbody; reflexivity.
    + left. inversion Hbody; reflexivity.
  - destruct (os_path_isfile f (disk w1)) eqn:Hfile.
    + right. left. exists (disk w1). split; [exact Hfile|].
      destruct (os_remove f (disk w1)) as [r d]. inversion Hbody; reflexivity.
    + destruct (os_path_isdir f (disk w1)) eqn:Hdir.
      * right. right. exists (disk w1). split; [exact Hfile|]. split; [exact Hdir|].
        destruct (shutil_rmtree f (disk w1)) as [r d]. inversion Hbody; reflexivity.
      * left. inversion Hbody; reflexivity.
Qed.

Lemma bulk_raises_only_witness :
  exists f, In f (_selected_files (selecting ["/home/u/a.txt"; "/home/u/docs"]))
    /\ (IsADirectoryError "[Errno 21] Is a directory: '/home/u/docs'"
        = FileNotFoundError (f ++ " does not exist.")
        \/ exists d, os_path_exists f d = true
                     /\ fst (shutil_copy2 f "/tmp" d)
                        = Raise (IsADirectoryError "[Errno 21] Is a directory: '/home/u/docs'")).
Proof.
  apply (proj1 (@bulk_raises_only Posix.node posix_OS
                  (selecting ["/home/u/a.txt"; "/home/u/docs"])
                  (snd (copy_files "/tmp" (selecting ["/home/u/a.txt"; "/home/u/docs"])))
                  "/tmp" (IsADirectoryError "[Errno 21] Is a directory: '/home/u/docs'"))).
  reflexivity.
Defined.

